(** * go-mocket: the fake statement and transaction of [stmt.go]

    A shallow embedding of [FakeStmt] ([Close], [ExecContext],
    [QueryContext]) and [FakeTx] ([Commit], [Rollback]), together with the
    properties the specification states about them.

    - Go strings are byte strings and are modelled by [string]; [int64]
      values by [Z]; pointers by locations into finite maps, [None]
      standing for [nil]; Go maps by [gmap].
    - A call is a function from the world before to an outcome and the
      world after.  The world holds the heap of connections and
      statements, the state of the test program, the random source, the
      runtime's choices of map iteration order, and a trace of the calls
      made on the way.
    - Hooks and callbacks are closures of the test program: they act on
      its state; they are taken to return, and not to reach into the
      driver.
    - [fmt.Sprintf] is modelled for the verbs [%v] and [%%]; what it writes
      for any other format is a parameter.
    - The catalog, the response type, the connection and the cursor are
      declared outside [stmt.go]; they are modelled from their uses there
      and from the specification. *)

From Stdlib Require Import ZArith List Lia Ascii.
From stdpp Require Import gmap strings list fin_maps pretty.

Set Implicit Arguments.
Local Open Scope string_scope.
Local Open Scope list_scope.
Local Open Scope Z_scope.

(** ** Values carried by arguments and records *)

(** A dynamic value ([driver.Value], [interface{}]).  [VOther] stands for a
    value of any further dynamic type ([float64], [time.Time], ...): it
    carries the name of its type and its rendering under the verb [%v]. *)
Inductive Value : Type :=
  | VNil
  | VInt64 (n : Z)
  | VBool (b : bool)
  | VString (s : string)
  | VBytes (bs : list N)
  | VOther (ty rendering : string).

Global Instance Value_eq_dec : EqDecision Value.
Proof. solve_decision. Defined.

(** [driver.NamedValue]. *)
Record NamedValue : Type := mkNamedValue {
  Name : string;
  Ordinal : Z;
  NValue : Value
}.

Global Instance NamedValue_eq_dec : EqDecision NamedValue.
Proof. solve_decision. Defined.

(** ** The part of Go's [strings] and [fmt] that [QueryContext] calls *)

Module GoStrings.

(** [strings.Replace(s, "?", "%v", 1)]: the first question mark, when
    there is one, becomes [%v]. *)
Fixpoint ReplaceFirstPlaceholder (s : string) : string :=
  match s with
  | EmptyString => EmptyString
  | String c rest =>
      if Ascii.eqb c "?"%char then String "%"%char (String "v"%char rest)
      else String c (ReplaceFirstPlaceholder rest)
  end.

(** Number of occurrences of byte [c]. *)
Fixpoint count (c : ascii) (s : string) : nat :=
  match s with
  | EmptyString => O
  | String d rest => ((if Ascii.eqb d c then 1 else 0) + count c rest)%nat
  end.

(** [s] holds no byte [c]. *)
Definition free_of (c : ascii) (s : string) : Prop := count c s = O.

End GoStrings.

Module Fmt.

Fixpoint join_bytes (bs : list N) : string :=
  match bs with
  | [] => ""
  | [b] => pretty b
  | b :: rest => pretty b +:+ " " +:+ join_bytes rest
  end.

(** What [printArg(v, 'v')] writes. *)
Definition render (v : Value) : string :=
  match v with
  | VNil => "<nil>"
  | VInt64 n => pretty n
  | VBool true => "true"
  | VBool false => "false"
  | VString s => s
  | VBytes bs => "[" +:+ join_bytes bs +:+ "]"
  | VOther _ r => r
  end.

(** [reflect.TypeOf(v).String()]. *)
Definition type_name (v : Value) : string :=
  match v with
  | VNil => ""
  | VInt64 _ => "int64"
  | VBool _ => "bool"
  | VString _ => "string"
  | VBytes _ => "[]uint8"
  | VOther ty _ => ty
  end.

(** The note [doPrintf] appends for an operand no verb consumed. *)
Definition extra (v : Value) : string :=
  "%!(EXTRA " +:+
  match v with
  | VNil => "<nil>"
  | _ => type_name v +:+ "=" +:+ render v
  end +:+ ")".

(** [doPrintf] over a format and at most one pending operand, for the
    formats whose verbs are [%v] and [%%] (a lone [%] at the end
    included).  [arg] is the operand not yet consumed.  Any other byte
    after [%] (a flag, a width, an index, another verb) leaves this
    fragment: the result is [None]. *)
Fixpoint doPrintf (format : string) (arg : option Value) : option string :=
  match format with
  | EmptyString =>
      Some (match arg with Some v => extra v | None => "" end)
  | String c rest =>
      if Ascii.eqb c "%"%char then
        match rest with
        | EmptyString =>
            Some ("%!(NOVERB)" +:+
                  match arg with Some v => extra v | None => "" end)
        | String d rest' =>
            if Ascii.eqb d "%"%char then
              String "%"%char <$> doPrintf rest' arg
            else if Ascii.eqb d "v"%char then
              match arg with
              | Some v => (fun t => render v +:+ t) <$> doPrintf rest' None
              | None => (fun t => "%!v(MISSING)" +:+ t) <$> doPrintf rest' None
              end
            else None
        end
      else String c <$> doPrintf rest arg
  end.

(** [fmt.Sprintf(format, v)].  [beyond] is what [fmt] writes for the
    formats outside the fragment above: some string, about which nothing is
    assumed. *)
Definition Sprintf (beyond : string -> Value -> string) (format : string)
    (v : Value) : string :=
  match doPrintf format (Some v) with
  | Some text => text
  | None => beyond format v
  end.

End Fmt.

(** ** Driver-level data *)

(** A pointer: a location of the heap; [None] is [nil]. *)
Definition loc := nat.

(** Go [error] values the statement code returns.  [errClosed] is the
    package's own; [ErrBadConn] is [driver.ErrBadConn];
    [ErrUnimplementedExec command] is
    [fmt.Errorf("unimplemented statement Exec command type of %q", command)];
    [ErrOther msg] is any further error value a test registers. *)
Inductive error : Type :=
  | errClosed
  | ErrBadConn
  | ErrUnimplementedExec (command : string)
  | ErrOther (msg : string).

Global Instance error_eq_dec : EqDecision error.
Proof. solve_decision. Defined.

(** Modelled from the spec: [NewFakeResult] and its type are not part of
    [stmt.go]; a fake result is the immutable pair (last-insert-id,
    rows-affected).  [RowsAffected n] is [driver.RowsAffected(n)] of Go's
    [database/sql/driver], which supports no last-insert-id. *)
Module Result.
Inductive t : Type :=
  | NewFakeResult (insertId rowsAffected : Z)
  | RowsAffected (n : Z).

Definition rowsAffected (r : t) : Z :=
  match r with
  | NewFakeResult _ n => n
  | RowsAffected n => n
  end.

Definition lastInsertId (r : t) : option Z :=
  match r with
  | NewFakeResult id _ => Some id
  | RowsAffected _ => None
  end.
End Result.

(** [row]: one materialised record. *)
Module row.
Record t : Type := mk { cols : list Value }.
End row.

(** Modelled from the spec: the declaration of [RowsCursor] is not part of
    [stmt.go]; the fields are the ones [QueryContext] fills in. *)
Module RowsCursor.
Record t : Type := mk {
  posRow : Z;
  rows : list (list row.t);
  cols : list string;
  colType : list (list string);
  errPos : Z;
  closed : bool
}.
End RowsCursor.

(** Modelled from the spec: the declaration of [FakeConn] is not part of
    [stmt.go]; [db] is the pointer [Close] tests and [currTx] the
    current-transaction reference [Commit] and [Rollback] clear. *)
Module FakeConn.
Record t : Type := mk {
  db : option loc;
  currTx : option loc
}.
End FakeConn.

Module FakeStmt.
Record t : Type := mk {
  connection : option loc;
  q : string;
  command : string;
  next : option loc;
  closed : bool;
  colName : list string;
  colType : list string;
  placeholders : Z
}.

Definition with_closed (b : bool) (s : t) : t :=
  mk (connection s) (q s) (command s) (next s) b
     (colName s) (colType s) (placeholders s).

Definition with_q (text : string) (s : t) : t :=
  mk (connection s) text (command s) (next s) (closed s)
     (colName s) (colType s) (placeholders s).
End FakeStmt.

Module FakeTx.
Record t : Type := mk { c : option loc }.
End FakeTx.

(** ** The trace of a run

    The calls that leave the statement code, and the reset of the
    current-transaction reference, in the order they happen. *)

(** Where a hook is consulted. *)
Inductive HookName : Type :=
  | AtExec
  | AtQuery
  | AtCommit
  | AtRollback.

Inductive Event : Type :=
  | EvFindResponse (text : string) (args : list NamedValue)
  | EvHook (h : HookName) (fired : bool)
  | EvCallback (text : string) (args : list NamedValue)
  | EvInt63 (id : Z)
  | EvRange (order : list string)
  | EvClearCurrTx (conn : loc).

(** ** Iteration over a Go map

    [range] over a map visits every key once, in an order the runtime
    chooses afresh for each loop.  The choice is a number [seed]: it selects
    one arrangement of the keys, and every arrangement is selected by some
    seed. *)
Fixpoint arrange {A : Type} (n : nat) (seed : nat) (l : list A) : list A :=
  match n with
  | O => []
  | S n' =>
      let k := length l in
      match l !! (seed mod k)%nat with
      | None => []
      | Some x => x :: arrange n' (seed / k)%nat (delete (seed mod k)%nat l)
      end
  end.

Definition rangeKeys (seed : nat) (m : gmap string Value) : list string :=
  let keys := (map_to_list m).*1 in
  arrange (length keys) seed keys.

(** ** Materialising the records of a response (stmt.go, lines 132-156) *)

(** The loop over the first record's keys: [colIndexes[colName] =
    len(columnNames); columnNames = append(columnNames, colName)]. *)
Definition collectColumns (keys : list string) : gmap string nat * list string :=
  foldl (fun acc colName =>
           (<[colName := length acc.2]> acc.1, acc.2 ++ [colName]))
        (∅, []) keys.

(** [oneRow := &row{cols: make([]interface{}, len(columnNames))}] followed
    by [oneRow.cols[colIndexes[col]] = record[col]] for every column.  A
    key absent from a Go map reads as the zero value: index [0] in
    [colIndexes], [nil] in [record]. *)
Definition buildRow (colIndexes : gmap string nat) (columnNames : list string)
    (record : gmap string Value) : row.t :=
  row.mk
    (foldl (fun cells col =>
              <[default O (colIndexes !! col) := default VNil (record !! col)]> cells)
           (replicate (length columnNames) VNil) columnNames).

Definition buildRows (colIndexes : gmap string nat) (columnNames : list string)
    (records : list (gmap string Value)) : list row.t :=
  foldl (fun rows record => rows ++ [buildRow colIndexes columnNames record])
        [] records.

Definition newCursor (resultRows : list (list row.t)) (columnNames : list string)
    : RowsCursor.t :=
  RowsCursor.mk (-1) resultRows columnNames [] (-1) false.

(** ** Argument substitution (stmt.go, lines 114-120) *)

(** The loop body, once per argument: [s.q = strings.Replace(s.q, "?",
    "%v", 1); s.q = fmt.Sprintf(s.q, args[i].Value)].  The result is the
    text the statement holds after the last iteration. *)
Fixpoint substitute (beyond : string -> Value -> string) (text : string)
    (args : list NamedValue) : string :=
  match args with
  | [] => text
  | a :: rest =>
      substitute beyond
        (Fmt.Sprintf beyond (GoStrings.ReplaceFirstPlaceholder text) (NValue a))
        rest
  end.

(** How a call ends: it returns, it panics, or the recursion budget of the
    model is used up. *)
Inductive Outcome (A : Type) : Type :=
  | Returns (a : A)
  | Panics (msg : string)
  | OutOfFuel.
Arguments Returns {A} a.
Arguments Panics {A} msg.
Arguments OutOfFuel {A}.

(** ** Responses, the catalog and the state of a run *)

Section Driver.

(** The state of the test program: what its hooks and callbacks can read
    and write.  The driver's own structures have unexported fields only
    and are out of their reach. *)
Variable U : Type.

(** What [fmt.Sprintf] writes for the formats outside the modelled
    fragment. *)
Variable beyond : string -> Value -> string.

(** A hook [func() bool] and a callback [func(string,
    []driver.NamedValue)], as closures of the test program. *)
Definition Hook : Type := U -> bool * U.
Definition CallbackFn : Type := string -> list NamedValue -> U -> U.

(** Modelled from the spec: the declarations of [Exceptions] and
    [FakeResponse] are not part of [stmt.go].  The fields are the ones the
    statement code reads; [Matches] is the response's matcher over the SQL
    text and the bound arguments. *)
Record ExceptionsT : Type := mkExceptions {
  HookQueryBadConnection : option Hook;
  HookExecBadConnection : option Hook
}.

Record FakeResponse : Type := mkFakeResponse {
  Matches : string -> list NamedValue -> bool;
  Response : list (gmap string Value);
  Error : option error;
  Callback : option CallbackFn;
  LastInsertID : Z;
  RowsAffected : Z;
  Exceptions : option ExceptionsT
}.

(** Modelled from the spec: the designated default response of an
    unmatched lookup: every field is the zero value. *)
Definition emptyResponse : FakeResponse :=
  mkFakeResponse (fun _ _ => false) [] None None 0 0 None.

(** Modelled from the spec: [Catcher.FindResponse] is not part of
    [stmt.go].  The catalog is the list of registered responses in
    registration order; the first response whose matcher accepts the text
    and the arguments wins, and [emptyResponse] answers when none does. *)
Definition MockCatcher : Type := list FakeResponse.

Definition FindResponse (Catcher : MockCatcher) (text : string)
    (args : list NamedValue) : FakeResponse :=
  match find (fun r => Matches r text args) Catcher with
  | Some r => r
  | None => emptyResponse
  end.

(** No registered response accepts the text. *)
Definition unmatched (Catcher : MockCatcher) (text : string)
    (args : list NamedValue) : Prop :=
  Forall (fun r => Matches r text args = false) Catcher.

(** Everything a run reads and writes: the heap of connections and
    statements, the test program's state, the source behind
    [rand.Int63], the runtime's choices of map iteration order, and the
    trace. *)
Record World : Type := mkWorld {
  conns : gmap loc FakeConn.t;
  stmts : gmap loc FakeStmt.t;
  env : U;
  rngSource : nat -> Z;
  rngPos : nat;
  iterSeed : nat -> nat;
  iterPos : nat;
  log : list Event
}.

Definition with_conns (cs : gmap loc FakeConn.t) (w : World) : World :=
  mkWorld cs (stmts w) (env w) (rngSource w) (rngPos w) (iterSeed w) (iterPos w) (log w).
Definition with_stmts (ss : gmap loc FakeStmt.t) (w : World) : World :=
  mkWorld (conns w) ss (env w) (rngSource w) (rngPos w) (iterSeed w) (iterPos w) (log w).
Definition with_env (e : U) (w : World) : World :=
  mkWorld (conns w) (stmts w) e (rngSource w) (rngPos w) (iterSeed w) (iterPos w) (log w).
Definition with_rngPos (n : nat) (w : World) : World :=
  mkWorld (conns w) (stmts w) (env w) (rngSource w) n (iterSeed w) (iterPos w) (log w).
Definition with_iterPos (n : nat) (w : World) : World :=
  mkWorld (conns w) (stmts w) (env w) (rngSource w) (rngPos w) (iterSeed w) n (log w).
Definition emit (e : Event) (w : World) : World :=
  mkWorld (conns w) (stmts w) (env w) (rngSource w) (rngPos w) (iterSeed w) (iterPos w)
          (log w ++ [e]).

(** ** The monad of a run *)

Definition M (A : Type) : Type := World -> Outcome A * World.

Definition ret {A : Type} (a : A) : M A := fun w => (Returns a, w).

Definition bind {A B : Type} (m : M A) (k : A -> M B) : M B :=
  fun w =>
    match m w with
    | (Returns a, w') => k a w'
    | (Panics msg, w') => (Panics msg, w')
    | (OutOfFuel, w') => (OutOfFuel, w')
    end.

Definition panic {A : Type} (msg : string) : M A := fun w => (Panics msg, w).
Definition modify (f : World -> World) : M unit := fun w => (Returns tt, f w).

Notation "'let!' x ':=' m 'in' k" := (bind m (fun x => k))
  (at level 10, x name, m at level 100, k at level 200, only parsing).
Notation "'do!' m 'in' k" := (bind m (fun _ => k))
  (at level 10, m at level 100, k at level 200, only parsing).

Definition nilDeref : string :=
  "runtime error: invalid memory address or nil pointer dereference".

(** Reading through a pointer; a location that holds nothing is [nil]. *)
Definition loadStmt (s : loc) : M FakeStmt.t :=
  fun w => match stmts w !! s with
           | Some st => (Returns st, w)
           | None => (Panics nilDeref, w)
           end.

Definition loadConn (c : loc) : M FakeConn.t :=
  fun w => match conns w !! c with
           | Some cn => (Returns cn, w)
           | None => (Panics nilDeref, w)
           end.

Definition storeStmt (s : loc) (st : FakeStmt.t) : M unit :=
  modify (fun w => with_stmts (<[s := st]> (stmts w)) w).

Definition storeConn (c : loc) (cn : FakeConn.t) : M unit :=
  modify (fun w => with_conns (<[c := cn]> (conns w)) w).

(** [h != nil && h()]. *)
Definition consult (name : HookName) (h : option Hook) : M bool :=
  match h with
  | None => ret false
  | Some f =>
      fun w => let '(b, e) := f (env w) in
               (Returns b, emit (EvHook name b) (with_env e w))
  end.

(** [if cb != nil { cb(text, args) }]. *)
Definition fire (cb : option CallbackFn) (text : string)
    (args : list NamedValue) : M unit :=
  match cb with
  | None => ret tt
  | Some f =>
      modify (fun w => emit (EvCallback text args) (with_env (f text args (env w)) w))
  end.

(** [Catcher.FindResponse(text, args)]. *)
Definition lookupResponse (Catcher : MockCatcher) (text : string)
    (args : list NamedValue) : M FakeResponse :=
  fun w => (Returns (FindResponse Catcher text args),
            emit (EvFindResponse text args) w).

(** [rand.Int63()]: the next output of the source, masked to 63 bits. *)
Definition Int63 : M Z :=
  fun w => let id := Z.land (rngSource w (rngPos w)) (2 ^ 63 - 1) in
           (Returns id, emit (EvInt63 id) (with_rngPos (S (rngPos w)) w)).

(** [for colName := range m]: the keys in the order of this loop. *)
Definition rangeMap (m : gmap string Value) : M (list string) :=
  fun w => let order := rangeKeys (iterSeed w (iterPos w)) m in
           (Returns order, emit (EvRange order) (with_iterPos (S (iterPos w)) w)).

(** ** [FakeStmt.Close] (stmt.go, lines 31-46)

    The recursion follows the [next] pointers; [fuel] bounds its depth. *)
Fixpoint Close (fuel : nat) (s : loc) : M (option error) :=
  match fuel with
  | O => fun w => (OutOfFuel, w)
  | S fuel' =>
      let! st := loadStmt s in
      match FakeStmt.connection st with
      | None => panic "nil conn in FakeStmt.Close"
      | Some c =>
          let! cn := loadConn c in
          match FakeConn.db cn with
          | None => panic "in FakeStmt.Close, conn's db is nil (already closed)"
          | Some _ =>
              do! (if negb (FakeStmt.closed st)
                   then storeStmt s (FakeStmt.with_closed true st)
                   else ret tt) in
              match FakeStmt.next st with
              | Some n => do! Close fuel' n in ret None
              | None => ret None
              end
          end
      end
  end.

(** The exec hook of a response: [fResp.Exceptions != nil &&
    fResp.Exceptions.HookExecBadConnection != nil]. *)
Definition execHook (fResp : FakeResponse) : option Hook :=
  match Exceptions fResp with
  | Some ex => HookExecBadConnection ex
  | None => None
  end.

Definition queryHook (fResp : FakeResponse) : option Hook :=
  match Exceptions fResp with
  | Some ex => HookQueryBadConnection ex
  | None => None
  end.

(** ** [FakeStmt.Exec] and [FakeStmt.Query] (stmt.go, lines 54-56 and
    102-104): the deprecated entry points panic. *)
Definition Exec (s : loc) (args : list Value) : M (option Result.t * option error) :=
  panic "Using ExecContext".

Definition Query (s : loc) (args : list Value)
    : M (option RowsCursor.t * option error) :=
  panic "Use QueryContext".

(** ** [FakeStmt.ExecContext] (stmt.go, lines 60-96) *)
Definition ExecContext (Catcher : MockCatcher) (s : loc)
    (args : list NamedValue) : M (option Result.t * option error) :=
  let! st := loadStmt s in
  if FakeStmt.closed st then ret (None, Some errClosed) else
  let! fResp := lookupResponse Catcher (FakeStmt.q st) args in
  let! bad := consult AtExec (execHook fResp) in
  if bad then ret (None, Some ErrBadConn) else
  match Error fResp with
  | Some e => ret (None, Some e)
  | None =>
      do! fire (Callback fResp) (FakeStmt.q st) args in
      let command := FakeStmt.command st in
      if String.eqb command "INSERT" then
        let! id := (if Z.eqb (LastInsertID fResp) 0 then Int63
               else ret (LastInsertID fResp)) in
        ret (Some (Result.NewFakeResult id 1), None)
      else if String.eqb command "UPDATE" then
        ret (Some (Result.RowsAffected (RowsAffected fResp)), None)
      else if String.eqb command "DELETE" then
        ret (Some (Result.RowsAffected (RowsAffected fResp)), None)
      else if String.eqb command "MERGE" then
        ret (Some (Result.RowsAffected (RowsAffected fResp)), None)
      else ret (None, Some (ErrUnimplementedExec command))
  end.

(** ** [FakeStmt.QueryContext] (stmt.go, lines 108-172) *)
Definition QueryContext (Catcher : MockCatcher) (s : loc)
    (args : list NamedValue) : M (option RowsCursor.t * option error) :=
  let! st := loadStmt s in
  if FakeStmt.closed st then ret (None, Some errClosed) else
  let! text := (match args with
           | [] => ret (FakeStmt.q st)
           | _ =>
               let text' := substitute beyond (FakeStmt.q st) args in
               do! storeStmt s (FakeStmt.with_q text' st) in ret text'
           end) in
  let! fResp := lookupResponse Catcher text args in
  let! bad := consult AtQuery (queryHook fResp) in
  if bad then ret (None, Some ErrBadConn) else
  match Error fResp with
  | Some e => ret (None, Some e)
  | None =>
      let! cols := (match Response fResp with
               | first :: _ => let! keys := rangeMap first in ret (collectColumns keys)
               | [] => ret (∅, [])
               end) in
      let rows := buildRows cols.1 cols.2 (Response fResp) in
      let cursor := newCursor [rows] cols.2 in
      do! fire (Callback fResp) text args in
      ret (Some cursor, None)
  end.

(** ** [FakeStmt.NumInput] (stmt.go, lines 175-177) *)
Definition NumInput (s : loc) : M Z :=
  let! st := loadStmt s in ret (FakeStmt.placeholders st).

(** ** [FakeTx.Commit] and [FakeTx.Rollback] (stmt.go, lines 188-206)

    The package variables [HookBadCommit] and [HookBadRollback] are
    parameters; [None] is a variable that was never assigned. *)

(** [tx.c.currTx = nil]. *)
Definition clearCurrTx (tx : FakeTx.t) : M unit :=
  match FakeTx.c tx with
  | None => panic nilDeref
  | Some c =>
      let! cn := loadConn c in
      do! storeConn c (FakeConn.mk (FakeConn.db cn) None) in
      modify (emit (EvClearCurrTx c))
  end.

Definition Commit (HookBadCommit : option Hook) (tx : FakeTx.t)
    : M (option error) :=
  do! clearCurrTx tx in
  let! bad := consult AtCommit HookBadCommit in
  if bad then ret (Some ErrBadConn) else ret None.

Definition Rollback (HookBadRollback : option Hook) (tx : FakeTx.t)
    : M (option error) :=
  do! clearCurrTx tx in
  let! bad := consult AtRollback HookBadRollback in
  if bad then ret (Some ErrBadConn) else ret None.

End Driver.

Arguments emptyResponse {U}.

(** ** Notions the properties are stated with *)

(** What the specification says of argument substitution: the positional
    placeholders of [text], in order, each replaced by the rendering of the
    corresponding argument.  Placeholders beyond the last argument stay. *)
Fixpoint placeholdersFilled (text : string) (renderings : list string) : string :=
  match text with
  | EmptyString => EmptyString
  | String c rest =>
      if Ascii.eqb c "?"%char then
        match renderings with
        | v :: vs => v +:+ placeholdersFilled rest vs
        | [] => text
        end
      else String c (placeholdersFilled rest renderings)
  end.

(** The value a row holds for column [c]. *)
Definition cell (record : gmap string Value) (c : string) : Value :=
  default VNil (record !! c).

(** The loop body of [collectColumns]. *)
Definition collectStep (acc : gmap string nat * list string) (colName : string)
    : gmap string nat * list string :=
  (<[colName := length acc.2]> acc.1, acc.2 ++ [colName]).

Section Notions.
Context {U : Type}.
Variable beyond : string -> Value -> string.

(** What [h != nil && h()] evaluates to in state [e]. *)
Definition fires (h : option (Hook U)) (e : U) : bool :=
  match h with
  | Some f => (f e).1
  | None => false
  end.

(** The world after the hook was consulted. *)
Definition hooked (name : HookName) (h : option (Hook U)) (w : World U) : World U :=
  match h with
  | Some f => emit (EvHook name (f (env w)).1) (with_env (f (env w)).2 w)
  | None => w
  end.

(** The world after the callback, when there is one, was invoked. *)
Definition called (cb : option (CallbackFn U)) (text : string)
    (args : list NamedValue) (w : World U) : World U :=
  match cb with
  | Some f => emit (EvCallback text args) (with_env (f text args (env w)) w)
  | None => w
  end.

(** The world in which the response is acted on: the lookup and the hook
    are behind. *)
Definition answered (name : HookName) (h : option (Hook U)) (text : string)
    (args : list NamedValue) (w : World U) : World U :=
  hooked name h (emit (EvFindResponse text args) w).

(** The world after the argument substitution of [QueryContext] left
    [text] in statement [s]. *)
Definition rewritten (s : loc) (st : FakeStmt.t) (args : list NamedValue)
    (text : string) (w : World U) : World U :=
  match args with
  | [] => w
  | _ => with_stmts (<[s := FakeStmt.with_q text st]> (stmts w)) w
  end.

(** The world once the current-transaction reference of [c] is cleared. *)
Definition cleared (c : loc) (cn : FakeConn.t) (w : World U) : World U :=
  emit (EvClearCurrTx c)
       (with_conns (<[c := FakeConn.mk (FakeConn.db cn) None]> (conns w)) w).

(** The test program's state after the hook was consulted. *)
Definition envAfter (h : option (Hook U)) (e : U) : U :=
  match h with
  | Some f => (f e).2
  | None => e
  end.

Definition is_callback (e : Event) : bool :=
  match e with EvCallback _ _ => true | _ => false end.
Definition is_lookup (e : Event) : bool :=
  match e with EvFindResponse _ _ => true | _ => false end.

(** Number of callback invocations, respectively catalog lookups, in a
    trace. *)
Definition callbacks (l : list Event) : nat := length (List.filter is_callback l).
Definition lookups (l : list Event) : nat := length (List.filter is_lookup l).

(** One call on a statement, and a sequence of calls run in order. *)
Inductive Call : Type :=
  | CallExec (args : list NamedValue)
  | CallQuery (args : list NamedValue).

Inductive Answer : Type :=
  | ExecAnswer (r : Outcome (option Result.t * option error))
  | QueryAnswer (r : Outcome (option RowsCursor.t * option error)).

Definition call (Catcher : MockCatcher U) (s : loc) (c : Call)
    (w : World U) : Answer * World U :=
  match c with
  | CallExec args => let r := ExecContext Catcher s args w in (ExecAnswer r.1, r.2)
  | CallQuery args =>
      let r := QueryContext beyond Catcher s args w in (QueryAnswer r.1, r.2)
  end.

Fixpoint calls (Catcher : MockCatcher U) (s : loc) (cs : list Call)
    (w : World U) : list Answer * World U :=
  match cs with
  | [] => ([], w)
  | c :: rest =>
      let r := call Catcher s c w in
      let r' := calls Catcher s rest r.2 in
      (r.1 :: r'.1, r'.2)
  end.

Definition closedAnswer (c : Call) : Answer :=
  match c with
  | CallExec _ => ExecAnswer (Returns (None, Some errClosed))
  | CallQuery _ => QueryAnswer (Returns (None, Some errClosed))
  end.

(** The statements reached from [s] through [next], each with a
    connection whose [db] is set: [chain w s ls] lists them, [s] first. *)
Inductive chain (w : World U) : loc -> list loc -> Prop :=
  | chain_last s st c cn d :
      stmts w !! s = Some st ->
      FakeStmt.connection st = Some c ->
      conns w !! c = Some cn ->
      FakeConn.db cn = Some d ->
      FakeStmt.next st = None ->
      chain w s [s]
  | chain_next s st c cn d n ls :
      stmts w !! s = Some st ->
      FakeStmt.connection st = Some c ->
      conns w !! c = Some cn ->
      FakeConn.db cn = Some d ->
      FakeStmt.next st = Some n ->
      chain w n ls ->
      chain w s (s :: ls).

(** The way from [s] down to [t] through [next]: [leads w s pre t] lists
    in [pre] the statements before [t], [s] first, each with a connection
    whose [db] is set.  [pre] is empty when [t] is [s] itself. *)
Inductive leads (w : World U) : loc -> list loc -> loc -> Prop :=
  | leads_here s : leads w s [] s
  | leads_step s st c cn d n pre t :
      stmts w !! s = Some st ->
      FakeStmt.connection st = Some c ->
      conns w !! c = Some cn ->
      FakeConn.db cn = Some d ->
      FakeStmt.next st = Some n ->
      leads w n pre t ->
      leads w s (s :: pre) t.

(** A guard of [Close] fails on statement [t], with the message of the
    panic: its connection is [nil], or its connection's [db] is. *)
Definition guardFails (w : World U) (t : loc) (msg : string) : Prop :=
  (exists st,
      stmts w !! t = Some st /\ FakeStmt.connection st = None /\
      msg = "nil conn in FakeStmt.Close") \/
  (exists st c cn,
      stmts w !! t = Some st /\ FakeStmt.connection st = Some c /\
      conns w !! c = Some cn /\ FakeConn.db cn = None /\
      msg = "in FakeStmt.Close, conn's db is nil (already closed)").

(** Setting the closed flag of every listed statement. *)
Definition closeAll (ls : list loc) (ss : gmap loc FakeStmt.t) : gmap loc FakeStmt.t :=
  foldl (fun m l => alter (FakeStmt.with_closed true) l m) ss ls.

End Notions.

(** ** Concrete statements, responses and worlds

    The test program's state is a counter: hooks and callbacks bump it. *)

Module Fixture.

Definition conn : FakeConn.t := FakeConn.mk (Some 9%nat) (Some 5%nat).

Definition stmt (command text : string) : FakeStmt.t :=
  FakeStmt.mk (Some 1%nat) text command None false [] [] 0.

Definition closedStmt : FakeStmt.t :=
  FakeStmt.mk (Some 1%nat) "SELECT * FROM users" "SELECT" None true [] [] 0.

(** One connection at location 1 and statement [st] at location 2; the
    random source yields [raw], map iteration takes choice [seed]. *)
Definition world (st : FakeStmt.t) (raw : Z) (seed : nat) : World nat :=
  mkWorld {[1%nat := conn]} {[2%nat := st]} O (fun _ => raw) O (fun _ => seed) O [].

(** A stand-in for [fmt] outside the modelled fragment; none of the
    formats used below reaches it. *)
Definition beyond : string -> Value -> string := fun format _ => format.

Definition arg (n : Z) (v : Value) : NamedValue := mkNamedValue "" n v.

Definition bump : CallbackFn nat := fun _ _ n => S n.
Definition hookTrue : Hook nat := fun n => (true, S n).
Definition hookFalse : Hook nat := fun n => (false, S n).

Definition exact (text : string) : string -> list NamedValue -> bool :=
  fun t _ => String.eqb t text.

(** [{"id": 1, "name": "a"}] and [{"id": 2, "name": "b"}], each built by
    inserting ["id"] first and ["name"] second. *)
Definition user (id : Z) (name : string) : gmap string Value :=
  <["name" := VString name]> (<["id" := VInt64 id]> ∅).

Definition users : FakeResponse nat :=
  mkFakeResponse (exact "SELECT * FROM users") [user 1 "a"; user 2 "b"]
                 None (Some bump) 0 0 None.

(** A second record without the ["name"] key. *)
Definition ragged : FakeResponse nat :=
  mkFakeResponse (exact "SELECT * FROM users")
                 [user 1 "a"; <["id" := VInt64 2]> ∅]
                 None None 0 0 None.

Definition updated : FakeResponse nat :=
  mkFakeResponse (exact "UPDATE users SET name=?") [] None (Some bump) 0 3 None.

Definition inserted (id : Z) : FakeResponse nat :=
  mkFakeResponse (exact "INSERT INTO users") [] None (Some bump) id 0 None.

Definition watched (text : string) : FakeResponse nat :=
  mkFakeResponse (exact text) [] None (Some bump) 0 0 None.

(** Both a firing bad-connection hook (either direction) and an error. *)
Definition broken (text : string) : FakeResponse nat :=
  mkFakeResponse (exact text) [] (Some (ErrOther "boom")) (Some bump) 0 0
                 (Some (mkExceptions (Some hookTrue) (Some hookTrue))).

Definition failing (text : string) : FakeResponse nat :=
  mkFakeResponse (exact text) [] (Some (ErrOther "boom")) (Some bump) 0 0
                 (Some (mkExceptions (Some hookFalse) (Some hookFalse))).

(** Statement 2 chained to statement 3, which has no connection. *)
Definition brokenChain : World nat :=
  mkWorld {[1%nat := conn]}
          (<[3%nat := FakeStmt.mk None "" "" None false [] [] 0]>
             {[2%nat := FakeStmt.mk (Some 1%nat) "" "" (Some 3%nat) false [] [] 0]})
          O (fun _ => 0) O (fun _ => O) O [].

(** Statement 2 chained to statement 3, both on connection 1; statement 3
    is closed already. *)
Definition goodChain : World nat :=
  mkWorld {[1%nat := conn]}
          (<[3%nat := FakeStmt.mk (Some 1%nat) "" "" None true [] [] 0]>
             {[2%nat := FakeStmt.mk (Some 1%nat) "" "" (Some 3%nat) false [] [] 0]})
          O (fun _ => 0) O (fun _ => O) O [].

(** Statement 2 chained to 3 and 3 to 4; statements 2 and 3 are on
    connection 1, statement 4 is on connection 7, whose [db] is [nil]. *)
Definition longBrokenChain : World nat :=
  mkWorld (<[7%nat := FakeConn.mk None None]> {[1%nat := conn]})
          (<[4%nat := FakeStmt.mk (Some 7%nat) "" "" None false [] [] 0]>
             (<[3%nat := FakeStmt.mk (Some 1%nat) "" "" (Some 4%nat) false [] [] 0]>
                {[2%nat := FakeStmt.mk (Some 1%nat) "" "" (Some 3%nat) false [] [] 0]}))
          O (fun _ => 0) O (fun _ => O) O [].

Definition tx : FakeTx.t := FakeTx.mk (Some 1%nat).

End Fixture.

(** ** Basic facts about the monad's primitives *)

Section Primitives.
Context {U : Type}.
Implicit Types (w : World U) (h : option (Hook U)).

Lemma consult_run name h w :
  consult name h w = (Returns (fires h (env w)), hooked name h w).
Proof.
  destruct h as [f|]; simpl; [|reflexivity].
  destruct (f (env w)) as [b e]; reflexivity.
Qed.

Lemma fire_run (cb : option (CallbackFn U)) text args w :
  fire cb text args w = (Returns tt, called cb text args w).
Proof. destruct cb; reflexivity. Qed.

Lemma FindResponse_unmatched (Catcher : MockCatcher U) text args :
  unmatched Catcher text args -> FindResponse Catcher text args = emptyResponse.
Proof.
  unfold unmatched, FindResponse. induction 1 as [|r rs Hr _ IH]; simpl.
  - reflexivity.
  - rewrite Hr. exact IH.
Qed.

Lemma bind_run {A B : Type} (m : M U A) (k : A -> M U B) w a w' :
  m w = (Returns a, w') -> bind m k w = k a w'.
Proof. unfold bind. intros ->. reflexivity. Qed.

Lemma loadStmt_run s st w :
  stmts w !! s = Some st -> loadStmt s w = (Returns st, w).
Proof. unfold loadStmt. intros ->. reflexivity. Qed.

Lemma loadConn_run c cn w :
  conns w !! c = Some cn -> loadConn c w = (Returns cn, w).
Proof. unfold loadConn. intros ->. reflexivity. Qed.

(** Hooks and callbacks touch the test program's state and the trace
    only. *)
Lemma hooked_frame name h w :
  conns (hooked name h w) = conns w /\ stmts (hooked name h w) = stmts w /\
  rngSource (hooked name h w) = rngSource w /\ rngPos (hooked name h w) = rngPos w /\
  iterSeed (hooked name h w) = iterSeed w /\ iterPos (hooked name h w) = iterPos w.
Proof. destruct h; repeat split; reflexivity. Qed.

Lemma called_frame (cb : option (CallbackFn U)) text args w :
  conns (called cb text args w) = conns w /\ stmts (called cb text args w) = stmts w /\
  rngSource (called cb text args w) = rngSource w /\
  rngPos (called cb text args w) = rngPos w /\
  iterSeed (called cb text args w) = iterSeed w /\
  iterPos (called cb text args w) = iterPos w.
Proof. destruct cb; repeat split; reflexivity. Qed.

Lemma answered_frame name h text args w :
  conns (answered name h text args w) = conns w /\
  stmts (answered name h text args w) = stmts w /\
  rngSource (answered name h text args w) = rngSource w /\
  rngPos (answered name h text args w) = rngPos w /\
  iterSeed (answered name h text args w) = iterSeed w /\
  iterPos (answered name h text args w) = iterPos w.
Proof. unfold answered. destruct h; repeat split; reflexivity. Qed.

(** The argument substitution writes to the statement only. *)
Lemma rewritten_frame s st args text w :
  conns (rewritten s st args text w) = conns w /\
  env (rewritten s st args text w) = env w /\
  rngSource (rewritten s st args text w) = rngSource w /\
  rngPos (rewritten s st args text w) = rngPos w /\
  iterSeed (rewritten s st args text w) = iterSeed w /\
  iterPos (rewritten s st args text w) = iterPos w /\
  log (rewritten s st args text w) = log w.
Proof. unfold rewritten. destruct args; repeat split; reflexivity. Qed.

Lemma callbacks_app (l1 l2 : list Event) :
  callbacks (l1 ++ l2) = (callbacks l1 + callbacks l2)%nat.
Proof. unfold callbacks. rewrite List.filter_app, length_app. reflexivity. Qed.

Lemma lookups_app (l1 l2 : list Event) :
  lookups (l1 ++ l2) = (lookups l1 + lookups l2)%nat.
Proof. unfold lookups. rewrite List.filter_app, length_app. reflexivity. Qed.

End Primitives.

(** ** How a call on a statement runs, case by case *)

Ltac run_step :=
  erewrite bind_run;
  [| first [ apply consult_run | apply fire_run
           | apply loadStmt_run; eassumption
           | apply loadConn_run; eassumption
           | reflexivity ] ].

Section Statement.
Context {U : Type} (beyond : string -> Value -> string) (Catcher : MockCatcher U).
Variables (s : loc) (st : FakeStmt.t) (args : list NamedValue) (w : World U).
Hypothesis Hst : stmts w !! s = Some st.

Lemma ExecContext_closed :
  FakeStmt.closed st = true ->
  ExecContext Catcher s args w = (Returns (None, Some errClosed), w).
Proof using Hst.
  intros Hc. unfold ExecContext. run_step. rewrite Hc. reflexivity.
Qed.

Lemma QueryContext_closed :
  FakeStmt.closed st = true ->
  QueryContext beyond Catcher s args w = (Returns (None, Some errClosed), w).
Proof using Hst.
  intros Hc. unfold QueryContext. run_step. rewrite Hc. reflexivity.
Qed.

Section Exec.
Hypothesis Hopen : FakeStmt.closed st = false.
Let text := FakeStmt.q st.
Let fResp := FindResponse Catcher text args.
Let w1 := answered AtExec (execHook fResp) text args w.

Lemma ExecContext_badconn :
  fires (execHook fResp) (env w) = true ->
  ExecContext Catcher s args w = (Returns (None, Some ErrBadConn), w1).
Proof using Hst Hopen.
  intros Hf. unfold ExecContext. run_step. rewrite Hopen.
  do 2 run_step. cbn [env emit]. fold text fResp. rewrite Hf. reflexivity.
Qed.

Lemma ExecContext_error e :
  fires (execHook fResp) (env w) = false ->
  Error fResp = Some e ->
  ExecContext Catcher s args w = (Returns (None, Some e), w1).
Proof using Hst Hopen.
  intros Hf He. unfold ExecContext. run_step. rewrite Hopen.
  do 2 run_step. cbn [env emit]. fold text fResp. rewrite Hf, He. reflexivity.
Qed.

(** Past the hook and the error: the callback, then the switch on the
    command. *)
Lemma ExecContext_dispatch :
  fires (execHook fResp) (env w) = false ->
  Error fResp = None ->
  ExecContext Catcher s args w =
    let w2 := called (Callback fResp) text args w1 in
    let command := FakeStmt.command st in
    if String.eqb command "INSERT" then
      if Z.eqb (LastInsertID fResp) 0 then
        let id := Z.land (rngSource w (rngPos w)) (2 ^ 63 - 1) in
        (Returns (Some (Result.NewFakeResult id 1), None),
         emit (EvInt63 id) (with_rngPos (S (rngPos w)) w2))
      else (Returns (Some (Result.NewFakeResult (LastInsertID fResp) 1), None), w2)
    else if String.eqb command "UPDATE" || String.eqb command "DELETE"
            || String.eqb command "MERGE" then
      (Returns (Some (Result.RowsAffected (RowsAffected fResp)), None), w2)
    else (Returns (None, Some (ErrUnimplementedExec command)), w2).
Proof using Hst Hopen.
  intros Hf He. unfold ExecContext. run_step. rewrite Hopen.
  do 2 run_step. cbn [env emit]. fold text fResp. rewrite Hf, He.
  run_step. fold w1. cbv zeta.
  destruct (String.eqb (FakeStmt.command st) "INSERT").
  - destruct (Z.eqb (LastInsertID fResp) 0); [|reflexivity].
    unfold bind, Int63, ret.
    change (hooked _ _ (emit _ w)) with w1.
    destruct (called_frame (Callback fResp) text args w1) as (_ & _ & -> & -> & _).
    destruct (answered_frame AtExec (execHook fResp) text args w)
      as (_ & _ & E1 & E2 & _).
    fold w1 in E1, E2. rewrite E1, E2. reflexivity.
  - destruct (String.eqb (FakeStmt.command st) "UPDATE"); [reflexivity|].
    destruct (String.eqb (FakeStmt.command st) "DELETE"); [reflexivity|].
    destruct (String.eqb (FakeStmt.command st) "MERGE"); reflexivity.
Qed.
End Exec.

Section Query.
Hypothesis Hopen : FakeStmt.closed st = false.
Let text := substitute beyond (FakeStmt.q st) args.
Let fResp := FindResponse Catcher text args.
Let w0 := rewritten s st args text w.
Let w1 := answered AtQuery (queryHook fResp) text args w0.

(** The statement's prologue: the substitution leaves [text] behind and
    the catalog is asked about it. *)
Lemma QueryContext_prologue {A : Type}
    (k : string -> FakeResponse U -> M U A) :
  bind (match args with
        | [] => ret (FakeStmt.q st)
        | _ =>
            let text' := substitute beyond (FakeStmt.q st) args in
            bind (storeStmt s (FakeStmt.with_q text' st)) (fun _ => ret text')
        end)
       (fun t => bind (lookupResponse Catcher t args) (k t)) w
  = k text fResp (emit (EvFindResponse text args) w0).
Proof using Type.
  unfold w0, rewritten, fResp, text. destruct args as [|a rest]; reflexivity.
Qed.

Lemma QueryContext_badconn :
  fires (queryHook fResp) (env w) = true ->
  QueryContext beyond Catcher s args w = (Returns (None, Some ErrBadConn), w1).
Proof using Hst Hopen.
  intros Hf. unfold QueryContext. run_step. rewrite Hopen.
  rewrite QueryContext_prologue. run_step. cbn [env emit].
  pose proof (rewritten_frame s st args text w) as F0; fold w0 in F0;
  destruct F0 as (_ & -> & _). fold fResp. rewrite Hf. reflexivity.
Qed.

Lemma QueryContext_error e :
  fires (queryHook fResp) (env w) = false ->
  Error fResp = Some e ->
  QueryContext beyond Catcher s args w = (Returns (None, Some e), w1).
Proof using Hst Hopen.
  intros Hf He. unfold QueryContext. run_step. rewrite Hopen.
  rewrite QueryContext_prologue. run_step. cbn [env emit].
  pose proof (rewritten_frame s st args text w) as F0; fold w0 in F0;
  destruct F0 as (_ & -> & _). fold fResp. rewrite Hf, He. reflexivity.
Qed.

(** Past the hook and the error with no record registered: an empty
    cursor. *)
Lemma QueryContext_no_records :
  fires (queryHook fResp) (env w) = false ->
  Error fResp = None ->
  Response fResp = [] ->
  QueryContext beyond Catcher s args w =
    (Returns (Some (newCursor [[]] []), None), called (Callback fResp) text args w1).
Proof using Hst Hopen.
  intros Hf He Hr. unfold QueryContext. run_step. rewrite Hopen.
  rewrite QueryContext_prologue. run_step. cbn [env emit].
  pose proof (rewritten_frame s st args text w) as F0; fold w0 in F0;
  destruct F0 as (_ & -> & _). fold fResp. rewrite Hf, He, Hr.
  do 2 run_step. reflexivity.
Qed.

(** Past the hook and the error with records: the keys of the first
    record, in the order this run iterates them, become the columns. *)
Lemma QueryContext_records first rest :
  fires (queryHook fResp) (env w) = false ->
  Error fResp = None ->
  Response fResp = first :: rest ->
  QueryContext beyond Catcher s args w =
    let keys := rangeKeys (iterSeed w (iterPos w)) first in
    let cols := collectColumns keys in
    (Returns (Some (newCursor [buildRows cols.1 cols.2 (first :: rest)] cols.2), None),
     called (Callback fResp) text args
       (emit (EvRange keys) (with_iterPos (S (iterPos w)) w1))).
Proof using Hst Hopen.
  intros Hf He Hr. unfold QueryContext. run_step. rewrite Hopen.
  rewrite QueryContext_prologue. run_step. cbn [env emit].
  pose proof (rewritten_frame s st args text w) as F0; fold w0 in F0;
  destruct F0 as (_ & -> & _ & _ & Hseed & Hpos & _).
  fold fResp. rewrite Hf, He, Hr.
  change (hooked _ _ (emit _ w0)) with w1.
  destruct (answered_frame AtQuery (queryHook fResp) text args w0)
    as (_ & _ & _ & _ & Hseed1 & Hpos1).
  fold w1 in Hseed1, Hpos1.
  unfold bind at 1. unfold bind at 1. unfold rangeMap.
  rewrite Hseed1, Hpos1, Hseed, Hpos. cbn [ret].
  run_step. reflexivity.
Qed.
End Query.

End Statement.

(** ** Materialisation: columns and rows *)

Section Materialise.

Lemma arrange_Permutation {A : Type} (n seed : nat) (l : list A) :
  length l = n -> arrange n seed l ≡ₚ l.
Proof.
  revert seed l. induction n as [|n IH]; intros seed l Hlen; simpl.
  - destruct l; [reflexivity | discriminate].
  - assert (Hlt : (seed mod length l < length l)%nat)
      by (apply Nat.mod_upper_bound; lia).
    destruct (lookup_lt_is_Some_2 l _ Hlt) as [x Hx]. rewrite Hx.
    etransitivity; [|symmetry; apply (delete_Permutation l _ x Hx)].
    constructor. apply IH. rewrite length_delete by eauto. lia.
Qed.

(** Every arrangement of the keys is the choice of some seed. *)
Lemma arrange_complete {A : Type} (l' : list A) : forall l,
  l' ≡ₚ l -> exists seed, arrange (length l) seed l = l'.
Proof.
  induction l' as [|x t IH]; intros l Hp.
  - apply Permutation_nil in Hp. subst l. exists O. reflexivity.
  - assert (Hx : x ∈ l) by (rewrite <- Hp; left).
    apply list_elem_of_lookup_1 in Hx as [i Hi].
    pose proof (lookup_lt_Some _ _ _ Hi) as Hlt.
    assert (Ht : t ≡ₚ delete i l).
    { apply (Permutation_cons_inv (a := x)).
      rewrite Hp. apply delete_Permutation. exact Hi. }
    destruct (IH _ Ht) as [seed' Hseed'].
    exists (i + length l * seed')%nat.
    destruct l as [|y l0] eqn:Hl; [simpl in Hlt; lia|].
    rewrite <- Hl in *. replace (length l) with (S (length l0)) at 1 by (subst; reflexivity).
    cbn [arrange].
    assert (Hmod : ((i + length l * seed') mod length l = i)%nat).
    { symmetry. apply (Nat.mod_unique _ _ seed'); lia. }
    assert (Hdiv : ((i + length l * seed') / length l = seed')%nat).
    { symmetry. apply (Nat.div_unique _ _ _ i); lia. }
    rewrite Hmod, Hdiv, Hi. f_equal.
    rewrite <- Hseed'. f_equal. rewrite length_delete by eauto.
    subst l. simpl. lia.
Qed.

Lemma rangeKeys_Permutation seed (m : gmap string Value) :
  rangeKeys seed m ≡ₚ (map_to_list m).*1.
Proof. unfold rangeKeys. apply arrange_Permutation. reflexivity. Qed.

Lemma rangeKeys_complete (m : gmap string Value) (order : list string) :
  order ≡ₚ (map_to_list m).*1 -> exists seed, rangeKeys seed m = order.
Proof. intros Hp. unfold rangeKeys. by apply arrange_complete. Qed.

Lemma rangeKeys_NoDup seed (m : gmap string Value) : NoDup (rangeKeys seed m).
Proof.
  rewrite rangeKeys_Permutation. apply NoDup_fst_map_to_list.
Qed.

Lemma rangeKeys_elem seed (m : gmap string Value) c :
  c ∈ rangeKeys seed m <-> is_Some (m !! c).
Proof.
  rewrite rangeKeys_Permutation. rewrite list_elem_of_fmap. split.
  - intros [[k v] [-> Hkv]]. apply elem_of_map_to_list in Hkv. eauto.
  - intros [v Hv]. exists (c, v). split; [reflexivity|].
    apply elem_of_map_to_list. exact Hv.
Qed.

Lemma collect_names keys acc : (foldl collectStep acc keys).2 = acc.2 ++ keys.
Proof.
  revert acc. induction keys as [|k keys IH]; intros acc; simpl.
  - by rewrite app_nil_r.
  - rewrite IH. simpl. by rewrite <- app_assoc.
Qed.

Lemma collect_index keys acc :
  NoDup (acc.2 ++ keys) ->
  (forall i c, acc.2 !! i = Some c -> acc.1 !! c = Some i) ->
  forall i c, (acc.2 ++ keys) !! i = Some c ->
              (foldl collectStep acc keys).1 !! c = Some i.
Proof.
  revert acc. induction keys as [|k keys IH]; intros acc Hnd Hacc i c Hi; simpl.
  - rewrite app_nil_r in Hi. by apply Hacc.
  - apply IH; simpl.
    + by rewrite <- app_assoc.
    + intros j d Hj. destruct (decide (j = length acc.2)) as [->|Hne].
      * rewrite lookup_app_r, Nat.sub_diag in Hj by lia.
        injection Hj as <-. apply lookup_insert_eq.
      * assert (acc.2 !! j = Some d) as Hj'.
        { apply lookup_lt_Some in Hj as Hlt. rewrite length_app in Hlt. simpl in Hlt.
          rewrite lookup_app_l in Hj by lia. exact Hj. }
        rewrite lookup_insert_ne; [by apply Hacc|].
        intros ->. apply NoDup_app in Hnd as (_ & Hdisj & _).
        apply (Hdisj d); [eapply list_elem_of_lookup_2; eauto | left].
    + by rewrite <- app_assoc.
Qed.

Lemma collectColumns_names keys : (collectColumns keys).2 = keys.
Proof. apply (collect_names keys (∅, [])). Qed.

Lemma collectColumns_index keys i c :
  NoDup keys -> keys !! i = Some c -> (collectColumns keys).1 !! c = Some i.
Proof.
  intros Hnd Hi. apply (collect_index keys (∅, [])); simpl; try done.
Qed.

Lemma fill_cells (idx : gmap string nat) record todo pre :
  (forall j c, todo !! j = Some c -> idx !! c = Some (length pre + j)%nat) ->
  foldl (fun cells col =>
           <[default O (idx !! col) := default VNil (record !! col)]> cells)
        (pre ++ replicate (length todo) VNil) todo
  = pre ++ (cell record <$> todo).
Proof.
  revert pre. induction todo as [|c todo IH]; intros pre Hpos; simpl.
  - reflexivity.
  - rewrite (Hpos O c eq_refl). simpl.
    rewrite Nat.add_0_r, insert_app_r_alt, Nat.sub_diag by lia. simpl.
    rewrite (cons_middle _ pre), app_assoc. rewrite IH.
    + by rewrite <- app_assoc.
    + intros j d Hj. rewrite (Hpos (S j) d Hj), length_app. simpl. f_equal. lia.
Qed.

Lemma buildRow_cells keys record :
  NoDup keys ->
  buildRow (collectColumns keys).1 (collectColumns keys).2 record
  = row.mk (cell record <$> keys).
Proof.
  intros Hnd. unfold buildRow. rewrite collectColumns_names. f_equal.
  apply (fill_cells (collectColumns keys).1 record keys []).
  intros j c Hj. by apply collectColumns_index.
Qed.

Lemma buildRows_map idx names records :
  buildRows idx names records = buildRow idx names <$> records.
Proof.
  unfold buildRows.
  cut (forall acc, foldl (fun rows record => rows ++ [buildRow idx names record])
                         acc records = acc ++ (buildRow idx names <$> records)).
  { intros H. apply (H []). }
  induction records as [|r rs IH]; intros acc; simpl.
  - by rewrite app_nil_r.
  - rewrite IH. by rewrite <- app_assoc.
Qed.

End Materialise.

(** ** Closing a chain of statements *)

Section Closing.
Context {U : Type}.
Implicit Types (w : World U) (st : FakeStmt.t).

Lemma with_closed_closed st :
  FakeStmt.closed st = true -> FakeStmt.with_closed true st = st.
Proof. destruct st; simpl; intros ->; reflexivity. Qed.

Lemma with_stmts_same w : with_stmts (stmts w) w = w.
Proof. destruct w; reflexivity. Qed.

Lemma alter_closed_insert (ss : gmap loc FakeStmt.t) s st :
  ss !! s = Some st ->
  alter (FakeStmt.with_closed true) s ss = <[s := FakeStmt.with_closed true st]> ss.
Proof.
  intros Hs. apply map_eq. intros l. rewrite lookup_alter, lookup_insert.
  destruct (decide (s = l)) as [->|]; [by rewrite Hs | done].
Qed.

Lemma alter_closed_id (ss : gmap loc FakeStmt.t) s st :
  ss !! s = Some st -> FakeStmt.closed st = true ->
  alter (FakeStmt.with_closed true) s ss = ss.
Proof.
  intros Hs Hc. rewrite (alter_closed_insert _ _ Hs), with_closed_closed by done.
  by apply insert_id.
Qed.

(** Marking a statement closed keeps every chain a chain. *)
Lemma chain_alter w s n ls :
  chain w n ls ->
  chain (with_stmts (alter (FakeStmt.with_closed true) s (stmts w)) w) n ls.
Proof.
  induction 1 as [l st c cn d Hl Hc Hcn Hd Hn | l st c cn d n ls Hl Hc Hcn Hd Hn _ IH].
  - eapply chain_last with (st := if decide (s = l) then FakeStmt.with_closed true st else st);
      [| | exact Hcn | exact Hd |].
    + cbn. rewrite lookup_alter. destruct (decide (s = l)) as [->|]; by rewrite Hl.
    + destruct (decide (s = l)); exact Hc.
    + destruct (decide (s = l)); exact Hn.
  - eapply chain_next with (st := if decide (s = l) then FakeStmt.with_closed true st else st);
      [| | exact Hcn | exact Hd | | exact IH].
    + cbn. rewrite lookup_alter. destruct (decide (s = l)) as [->|]; by rewrite Hl.
    + destruct (decide (s = l)); exact Hc.
    + destruct (decide (s = l)); exact Hn.
Qed.

(** The flag step of [Close]: [if !s.closed { s.closed = true }]. *)
Lemma Close_flag w s st :
  stmts w !! s = Some st ->
  (if negb (FakeStmt.closed st)
   then storeStmt s (FakeStmt.with_closed true st)
   else ret tt) w
  = (Returns tt, with_stmts (alter (FakeStmt.with_closed true) s (stmts w)) w).
Proof.
  intros Hs. destruct (FakeStmt.closed st) eqn:Hc; simpl.
  - rewrite (alter_closed_id _ _ Hs Hc), with_stmts_same. reflexivity.
  - rewrite (alter_closed_insert _ _ Hs). reflexivity.
Qed.

(** With fuel for every statement of the chain, [Close] returns [nil] and
    leaves each of them closed. *)
Lemma Close_chain ls : forall s w fuel,
  chain w s ls -> (length ls <= fuel)%nat ->
  Close fuel s w = (Returns None, with_stmts (closeAll ls (stmts w)) w).
Proof.
  induction ls as [|l ls IH]; intros s w fuel Hch Hfuel; [inversion Hch|].
  destruct fuel as [|fuel]; [simpl in Hfuel; lia|].
  simpl in Hfuel.
  inversion Hch as [s' st c cn d Hs Hc Hcn Hd Hn | s' st c cn d n ls' Hs Hc Hcn Hd Hn Hrest];
    subst; cbn [Close].
  - run_step. rewrite Hc. run_step. rewrite Hd. rewrite Hn.
    erewrite bind_run by (apply (Close_flag _ _ Hs)). reflexivity.
  - run_step. rewrite Hc. run_step. rewrite Hd. rewrite Hn.
    erewrite bind_run by (apply (Close_flag _ _ Hs)).
    erewrite bind_run.
    2:{ apply IH; [apply chain_alter; exact Hrest | lia]. }
    reflexivity.
Qed.

Lemma Close_nil_connection fuel s st w :
  stmts w !! s = Some st -> FakeStmt.connection st = None ->
  Close (S fuel) s w = (Panics "nil conn in FakeStmt.Close", w).
Proof. intros Hs Hc. cbn [Close]. run_step. rewrite Hc. reflexivity. Qed.

Lemma Close_nil_db fuel s st c cn w :
  stmts w !! s = Some st -> FakeStmt.connection st = Some c ->
  conns w !! c = Some cn -> FakeConn.db cn = None ->
  Close (S fuel) s w
  = (Panics "in FakeStmt.Close, conn's db is nil (already closed)", w).
Proof.
  intros Hs Hc Hcn Hd. cbn [Close]. run_step. rewrite Hc. run_step.
  rewrite Hd. reflexivity.
Qed.

(** Marking a statement closed keeps the way down and the failing guard. *)
Lemma leads_alter w a s pre t :
  leads w s pre t ->
  leads (with_stmts (alter (FakeStmt.with_closed true) a (stmts w)) w) s pre t.
Proof.
  induction 1 as [l | l st c cn d n pre t Hl Hc Hcn Hd Hn _ IH].
  - apply leads_here.
  - eapply leads_step with (st := if decide (a = l) then FakeStmt.with_closed true st else st);
      [| | exact Hcn | exact Hd | | exact IH].
    + cbn. rewrite lookup_alter. destruct (decide (a = l)) as [->|]; by rewrite Hl.
    + destruct (decide (a = l)); exact Hc.
    + destruct (decide (a = l)); exact Hn.
Qed.

Lemma guardFails_alter w a t msg :
  guardFails w t msg ->
  guardFails (with_stmts (alter (FakeStmt.with_closed true) a (stmts w)) w) t msg.
Proof.
  intros [(st & Ht & Hc & Hm) | (st & c & cn & Ht & Hc & Hcn & Hd & Hm)].
  - left. exists (if decide (a = t) then FakeStmt.with_closed true st else st).
    split; [|split; [destruct (decide (a = t)); exact Hc | exact Hm]].
    cbn. rewrite lookup_alter. destruct (decide (a = t)) as [->|]; by rewrite Ht.
  - right. exists (if decide (a = t) then FakeStmt.with_closed true st else st), c, cn.
    split; [|split; [destruct (decide (a = t)); exact Hc
                    |split; [exact Hcn | split; [exact Hd | exact Hm]]]].
    cbn. rewrite lookup_alter. destruct (decide (a = t)) as [->|]; by rewrite Ht.
Qed.

(** Every statement on the way down is allocated, and the statement whose
    guard fails is not one of them. *)
Lemma leads_allocated w s pre t l :
  leads w s pre t -> l ∈ pre -> is_Some (stmts w !! l).
Proof.
  induction 1 as [a | a st c cn d n pre t Ha _ _ _ _ _ IH]; intros Hl.
  - by apply elem_of_nil in Hl.
  - apply elem_of_cons in Hl as [->|Hl]; [eauto | by apply IH].
Qed.

Lemma leads_before w s pre t msg :
  leads w s pre t -> guardFails w t msg -> t ∉ pre.
Proof.
  intros Hl Hg.
  induction Hl as [a | a st c cn d n pre t Ha Hc Hcn Hd _ _ IH].
  - apply not_elem_of_nil.
  - apply not_elem_of_cons. split; [|exact (IH Hg)].
    intros ->.
    destruct Hg as [(st' & Ht & Hc' & _) | (st' & c' & cn' & Ht & Hc' & Hcn' & Hd' & _)];
      congruence.
Qed.

(** A guard that fails on the statement itself: [Close] panics at once. *)
Lemma Close_guard_fails fuel t msg w :
  guardFails w t msg -> Close (S fuel) t w = (Panics msg, w).
Proof.
  intros [(st & Ht & Hc & ->) | (st & c & cn & Ht & Hc & Hcn & Hd & ->)].
  - exact (Close_nil_connection fuel t w Ht Hc).
  - exact (Close_nil_db fuel t w Ht Hc Hcn Hd).
Qed.

(** A guard that fails further down: [Close] sets the closed flag of every
    statement on the way and panics with the failing statement's message. *)
Lemma Close_leads pre : forall s t msg w fuel,
  leads w s pre t -> guardFails w t msg -> (length pre < fuel)%nat ->
  Close fuel s w = (Panics msg, with_stmts (closeAll pre (stmts w)) w).
Proof.
  induction pre as [|a pre IH]; intros s t msg w fuel Hl Hg Hfuel.
  - inversion Hl; subst. destruct fuel as [|fuel]; [simpl in Hfuel; lia|].
    rewrite (Close_guard_fails fuel Hg). cbn [closeAll foldl].
    rewrite with_stmts_same. reflexivity.
  - inversion Hl as [|s' st c cn d n pre' t' Hs Hc Hcn Hd Hn Hrest]; subst.
    destruct fuel as [|fuel]; [simpl in Hfuel; lia|]. simpl in Hfuel.
    cbn [Close]. run_step. rewrite Hc. run_step. rewrite Hd, Hn.
    erewrite bind_run by (apply (Close_flag _ _ Hs)).
    unfold bind at 1.
    rewrite (IH n t msg _ fuel (leads_alter a Hrest) (guardFails_alter a Hg))
      by lia.
    reflexivity.
Qed.

(** A statement that is its own [next]: the recursion never ends, so no
    budget is enough. *)
Lemma Close_self_loop fuel : forall s st c cn d w,
  stmts w !! s = Some st -> FakeStmt.connection st = Some c ->
  conns w !! c = Some cn -> FakeConn.db cn = Some d ->
  FakeStmt.next st = Some s ->
  (Close fuel s w).1 = OutOfFuel.
Proof.
  induction fuel as [|fuel IH]; intros s st c cn d w Hs Hc Hcn Hd Hn; [reflexivity|].
  cbn [Close]. run_step. rewrite Hc. run_step. rewrite Hd, Hn.
  erewrite bind_run by (apply (Close_flag _ _ Hs)).
  unfold bind.
  match goal with |- context [Close fuel s ?w'] =>
    pose proof (IH s (FakeStmt.with_closed true st) c cn d w') as H end.
  destruct (Close fuel s _) as [[o| |] w'] eqn:E; cbn [fst] in *;
    try reflexivity;
    (exfalso; cbn [stmts with_stmts conns] in H;
     rewrite lookup_alter, decide_True, Hs in H by reflexivity;
     specialize (H eq_refl Hc Hcn Hd Hn); discriminate).
Qed.

(** What [closeAll] leaves at a location. *)
Lemma closeAll_lookup ls (ss : gmap loc FakeStmt.t) l :
  closeAll ls ss !! l
  = if decide (l ∈ ls) then FakeStmt.with_closed true <$> ss !! l else ss !! l.
Proof.
  revert ss. induction ls as [|a ls IH]; intros ss; cbn [closeAll foldl].
  - destruct (decide (l ∈ [])) as [H|]; [by apply elem_of_nil in H | done].
  - change (foldl _ ?m ls) with (closeAll ls m). rewrite IH, lookup_alter.
    destruct (decide (l ∈ ls)) as [Hin|Hnin], (decide (a = l)) as [->|Hne].
    + rewrite decide_True by left.
      destruct (ss !! l) as [[]|]; reflexivity.
    + rewrite decide_True by (by right). reflexivity.
    + rewrite decide_True by left. reflexivity.
    + rewrite decide_False; [reflexivity|].
      intros [->|?]%elem_of_cons; done.
Qed.

End Closing.

(** ** Ending a transaction *)

Section Transaction.
Context {U : Type}.
Implicit Types (w : World U) (hook : option (Hook U)).

Lemma clearCurrTx_run tx c cn w :
  FakeTx.c tx = Some c -> conns w !! c = Some cn ->
  clearCurrTx tx w = (Returns tt, cleared c cn w).
Proof.
  intros Hc Hcn. unfold clearCurrTx. rewrite Hc. run_step. reflexivity.
Qed.

Lemma Commit_run hook tx c cn w :
  FakeTx.c tx = Some c -> conns w !! c = Some cn ->
  Commit hook tx w
  = (Returns (if fires hook (env w) then Some ErrBadConn else None),
     hooked AtCommit hook (cleared c cn w)).
Proof.
  intros Hc Hcn. unfold Commit.
  erewrite bind_run by (eapply clearCurrTx_run; eauto).
  run_step. cbn [cleared env emit with_conns].
  destruct (fires hook (env w)); reflexivity.
Qed.

(** A transaction without a connection: [tx.c.currTx] dereferences
    [nil]. *)
Lemma Commit_nil_connection hook tx w :
  FakeTx.c tx = None -> Commit hook tx w = (Panics nilDeref, w).
Proof. intros Hc. unfold Commit, bind, clearCurrTx. rewrite Hc. reflexivity. Qed.

Lemma Rollback_nil_connection hook tx w :
  FakeTx.c tx = None -> Rollback hook tx w = (Panics nilDeref, w).
Proof. intros Hc. unfold Rollback, bind, clearCurrTx. rewrite Hc. reflexivity. Qed.

Lemma Rollback_run hook tx c cn w :
  FakeTx.c tx = Some c -> conns w !! c = Some cn ->
  Rollback hook tx w
  = (Returns (if fires hook (env w) then Some ErrBadConn else None),
     hooked AtRollback hook (cleared c cn w)).
Proof.
  intros Hc Hcn. unfold Rollback.
  erewrite bind_run by (eapply clearCurrTx_run; eauto).
  run_step. cbn [cleared env emit with_conns].
  destruct (fires hook (env w)); reflexivity.
Qed.

End Transaction.

(** ** The trace of a call *)

Section Trace.
Context {U : Type}.
Implicit Types (w : World U).

Lemma log_hooked name (h : option (Hook U)) w :
  log (hooked name h w)
  = log w ++ match h with
             | Some f => [EvHook name (f (env w)).1]
             | None => []
             end.
Proof. destruct h; simpl; [reflexivity | by rewrite app_nil_r]. Qed.

Lemma log_called (cb : option (CallbackFn U)) text args w :
  log (called cb text args w)
  = log w ++ match cb with
             | Some _ => [EvCallback text args]
             | None => []
             end.
Proof. destruct cb; simpl; [reflexivity | by rewrite app_nil_r]. Qed.

Lemma log_answered name (h : option (Hook U)) text args w :
  log (answered name h text args w)
  = log w ++ EvFindResponse text args ::
             match h with
             | Some f => [EvHook name (f (env w)).1]
             | None => []
             end.
Proof.
  unfold answered. rewrite log_hooked. simpl. by rewrite <- app_assoc.
Qed.

Lemma callbacks_answered name (h : option (Hook U)) text args w :
  callbacks (log (answered name h text args w)) = callbacks (log w).
Proof.
  rewrite log_answered, callbacks_app. destruct h; cbn; lia.
Qed.

Lemma callbacks_called (cb : option (CallbackFn U)) text args w :
  callbacks (log (called cb text args w))
  = (callbacks (log w) + match cb with Some _ => 1 | None => 0 end)%nat.
Proof. rewrite log_called, callbacks_app. destruct cb; reflexivity. Qed.

Lemma env_answered name (h : option (Hook U)) text args w :
  env (answered name h text args w) = envAfter h (env w).
Proof. unfold answered, hooked, envAfter. destruct h; reflexivity. Qed.

(** Past the hook and the error, [ExecContext] runs the callback and
    then adds at most a random draw to the trace. *)
Lemma ExecContext_past_callback (Catcher : MockCatcher U) s st args w :
  stmts w !! s = Some st ->
  FakeStmt.closed st = false ->
  let fResp := FindResponse Catcher (FakeStmt.q st) args in
  fires (execHook fResp) (env w) = false ->
  Error fResp = None ->
  let w2 := called (Callback fResp) (FakeStmt.q st) args
              (answered AtExec (execHook fResp) (FakeStmt.q st) args w) in
  exists tail,
    log (ExecContext Catcher s args w).2 = log w2 ++ tail /\
    callbacks tail = O /\ lookups tail = O /\
    env (ExecContext Catcher s args w).2 = env w2 /\
    stmts (ExecContext Catcher s args w).2 = stmts w2.
Proof.
  intros Hst Hopen fResp Hq He w2.
  rewrite (ExecContext_dispatch Catcher s args w Hst Hopen Hq He).
  fold fResp. cbv zeta. fold w2.
  destruct (String.eqb (FakeStmt.command st) "INSERT");
    [destruct (Z.eqb (LastInsertID fResp) 0)
    |destruct (String.eqb (FakeStmt.command st) "UPDATE"
               || String.eqb (FakeStmt.command st) "DELETE"
               || String.eqb (FakeStmt.command st) "MERGE")];
    cbn [snd];
    first [ exists []; rewrite app_nil_r; repeat split; reflexivity
          | eexists [_]; repeat split; reflexivity ].
Qed.

End Trace.

(** ** The properties of the specification *)

(** C5. On a statement whose closed flag is set, every [ExecContext] and
    every [QueryContext] call returns [(nil, errClosed)] and leaves the
    world as it was: the catalog is not asked, no callback runs, and the
    trace does not grow.  This holds for any sequence of calls, of any
    length. *)
Theorem C5_closed_statement_rejects {U : Type}
    (beyond : string -> Value -> string) (Catcher : MockCatcher U)
    (s : loc) (st : FakeStmt.t) (cs : list Call) (w : World U) :
  stmts w !! s = Some st ->
  FakeStmt.closed st = true ->
  let r := calls beyond Catcher s cs w in
  r.1 = closedAnswer <$> cs /\ r.2 = w /\
  lookups (log r.2) = lookups (log w) /\
  callbacks (log r.2) = callbacks (log w).
Proof.
  intros Hst Hc.
  assert (Hcall : forall c, call beyond Catcher s c w = (closedAnswer c, w)).
  { intros [args|args]; unfold call.
    - rewrite (ExecContext_closed Catcher s args w Hst Hc). reflexivity.
    - rewrite (QueryContext_closed beyond Catcher s args w Hst Hc). reflexivity. }
  assert (H : calls beyond Catcher s cs w = (closedAnswer <$> cs, w)).
  { induction cs as [|c cs IH]; [reflexivity|].
    cbn [calls]. rewrite Hcall. cbn [fst snd]. rewrite IH. reflexivity. }
  cbv zeta. rewrite H. repeat split; reflexivity.
Qed.

Lemma C5_closed_statement_rejects_witness :
  let cs := [CallExec [Fixture.arg 1 (VInt64 7)]; CallQuery []; CallExec []] in
  let w := Fixture.world Fixture.closedStmt 0 O in
  let r := calls Fixture.beyond [Fixture.users] 2%nat cs w in
  r.1 = closedAnswer <$> cs /\ r.2 = w /\
  lookups (log r.2) = lookups (log w) /\
  callbacks (log r.2) = callbacks (log w).
Proof.
  exact (C5_closed_statement_rejects Fixture.beyond [Fixture.users] 2%nat
           (st := Fixture.closedStmt)
           [CallExec [Fixture.arg 1 (VInt64 7)]; CallQuery []; CallExec []]
           (Fixture.world Fixture.closedStmt 0 O) eq_refl eq_refl).
Defined.

(** C3. On an open statement whose matched response carries both a
    bad-connection hook for the direction of the call that returns true
    and a registered [Error], [ExecContext] and [QueryContext] return
    [(nil, driver.ErrBadConn)]: the registered error is not returned, no
    result or cursor is built, and after the lookup and the hook nothing
    else runs. *)
Theorem C3_bad_connection_before_error {U : Type}
    (beyond : string -> Value -> string) (Catcher : MockCatcher U)
    (s : loc) (st : FakeStmt.t) (args : list NamedValue) (w : World U) :
  stmts w !! s = Some st ->
  FakeStmt.closed st = false ->
  (forall ex h e,
      let fResp := FindResponse Catcher (FakeStmt.q st) args in
      Exceptions fResp = Some ex ->
      HookExecBadConnection ex = Some h ->
      (h (env w)).1 = true ->
      Error fResp = Some e ->
      let r := ExecContext Catcher s args w in
      r.1 = Returns (None, Some ErrBadConn) /\
      log r.2 = log w ++ [EvFindResponse (FakeStmt.q st) args;
                          EvHook AtExec true] /\
      env r.2 = (h (env w)).2 /\ stmts r.2 = stmts w /\ rngPos r.2 = rngPos w)
  /\
  (forall ex h e,
      let text := substitute beyond (FakeStmt.q st) args in
      let fResp := FindResponse Catcher text args in
      Exceptions fResp = Some ex ->
      HookQueryBadConnection ex = Some h ->
      (h (env w)).1 = true ->
      Error fResp = Some e ->
      let r := QueryContext beyond Catcher s args w in
      r.1 = Returns (None, Some ErrBadConn) /\
      log r.2 = log w ++ [EvFindResponse text args;
                          EvHook AtQuery true] /\
      env r.2 = (h (env w)).2 /\ iterPos r.2 = iterPos w).
Proof.
  intros Hst Hopen. split.
  - intros ex h e fResp Hex Hh Hfire _ r.
    assert (Hk : execHook fResp = Some h) by (unfold execHook; rewrite Hex; exact Hh).
    subst r. rewrite (ExecContext_badconn Catcher s args w Hst Hopen)
      by (fold fResp; rewrite Hk; exact Hfire).
    fold fResp. rewrite Hk. cbn [fst snd]. rewrite log_answered.
    unfold answered. cbn. rewrite Hfire. repeat split; reflexivity.
  - intros ex h e text fResp Hex Hh Hfire _ r.
    assert (Hk : queryHook fResp = Some h) by (unfold queryHook; rewrite Hex; exact Hh).
    subst r. rewrite (QueryContext_badconn beyond Catcher s args w Hst Hopen)
      by (fold text fResp; rewrite Hk; exact Hfire).
    fold text fResp. rewrite Hk. cbn [fst snd]. rewrite log_answered.
    destruct (rewritten_frame s st args text w) as (_ & He & _ & _ & _ & Hp & Hl).
    rewrite Hl, He. unfold answered. cbn. rewrite He, Hp, Hfire.
    repeat split; reflexivity.
Qed.

Lemma C3_bad_connection_before_error_witness :
  let Catcher := [Fixture.broken "UPDATE users SET name=?"] in
  let w := Fixture.world (Fixture.stmt "UPDATE" "UPDATE users SET name=?") 0 O in
  ((ExecContext Catcher 2%nat [] w).1 = Returns (None, Some ErrBadConn) /\
   log (ExecContext Catcher 2%nat [] w).2
   = [EvFindResponse "UPDATE users SET name=?" [];
      EvHook AtExec true]) /\
  ((QueryContext Fixture.beyond Catcher 2%nat [] w).1 = Returns (None, Some ErrBadConn) /\
   log (QueryContext Fixture.beyond Catcher 2%nat [] w).2
   = [EvFindResponse "UPDATE users SET name=?" [];
      EvHook AtQuery true]).
Proof.
  intros Catcher w.
  destruct (C3_bad_connection_before_error Fixture.beyond Catcher 2%nat
              (st := Fixture.stmt "UPDATE" "UPDATE users SET name=?") [] w
              eq_refl eq_refl) as [HE HQ].
  split.
  - destruct (HE (mkExceptions (Some Fixture.hookTrue) (Some Fixture.hookTrue))
                 Fixture.hookTrue (ErrOther "boom")
                 eq_refl eq_refl eq_refl eq_refl) as (H1 & H2 & _).
    split; [exact H1 | exact H2].
  - destruct (HQ (mkExceptions (Some Fixture.hookTrue) (Some Fixture.hookTrue))
                 Fixture.hookTrue (ErrOther "boom")
                 eq_refl eq_refl eq_refl eq_refl) as (H1 & H2 & _).
    split; [exact H1 | exact H2].
Defined.

(** C7. On an open statement whose matched response neither fires the exec
    hook nor carries an error, [ExecContext] with command UPDATE, DELETE or
    MERGE returns [driver.RowsAffected] of exactly the registered
    [RowsAffected] (zero when the field was left at its zero value) and no
    error; with a command that is none of INSERT, UPDATE, DELETE, MERGE it
    returns no result and the unimplemented-command error carrying that
    command. *)
Theorem C7_exec_rows_affected_or_unimplemented {U : Type}
    (Catcher : MockCatcher U) (s : loc) (st : FakeStmt.t)
    (args : list NamedValue) (w : World U) :
  stmts w !! s = Some st ->
  FakeStmt.closed st = false ->
  let fResp := FindResponse Catcher (FakeStmt.q st) args in
  fires (execHook fResp) (env w) = false ->
  Error fResp = None ->
  let command := FakeStmt.command st in
  let r := (ExecContext Catcher s args w).1 in
  (command = "UPDATE" \/ command = "DELETE" \/ command = "MERGE" ->
   r = Returns (Some (Result.RowsAffected (RowsAffected fResp)), None) /\
   (forall res, r = Returns (Some res, None) ->
                Result.rowsAffected res = RowsAffected fResp) /\
   (RowsAffected fResp = 0 -> r = Returns (Some (Result.RowsAffected 0), None)))
  /\
  (command <> "INSERT" -> command <> "UPDATE" -> command <> "DELETE" ->
   command <> "MERGE" ->
   r = Returns (None, Some (ErrUnimplementedExec command))).
Proof.
  intros Hst Hopen fResp Hq He command r. subst r.
  rewrite (ExecContext_dispatch Catcher s args w Hst Hopen Hq He).
  fold fResp command. cbv zeta. split.
  - intros Hcmd.
    assert (Hsw : String.eqb command "INSERT" = false /\
                  (String.eqb command "UPDATE" || String.eqb command "DELETE"
                   || String.eqb command "MERGE") = true).
    { destruct Hcmd as [-> | [-> | ->]]; split; reflexivity. }
    destruct Hsw as [-> ->]. cbn [fst]. repeat split.
    + intros res [= <-]. reflexivity.
    + intros ->. reflexivity.
  - intros H1 H2 H3 H4.
    apply String.eqb_neq in H1, H2, H3, H4. rewrite H1, H2, H3, H4. reflexivity.
Qed.

Lemma C7_exec_rows_affected_or_unimplemented_witness :
  (ExecContext [Fixture.updated] 2%nat [Fixture.arg 1 (VString "x")]
     (Fixture.world (Fixture.stmt "UPDATE" "UPDATE users SET name=?") 0 O)).1
  = Returns (Some (Result.RowsAffected 3), None) /\
  (ExecContext [Fixture.updated] 2%nat [Fixture.arg 1 (VString "x")]
     (Fixture.world (Fixture.stmt "CREATE" "UPDATE users SET name=?") 0 O)).1
  = Returns (None, Some (ErrUnimplementedExec "CREATE")).
Proof.
  split.
  - apply (C7_exec_rows_affected_or_unimplemented [Fixture.updated] 2%nat
             (st := Fixture.stmt "UPDATE" "UPDATE users SET name=?")
             [Fixture.arg 1 (VString "x")]
             (Fixture.world (Fixture.stmt "UPDATE" "UPDATE users SET name=?") 0 O)
             eq_refl eq_refl eq_refl eq_refl).
    left. reflexivity.
  - apply (C7_exec_rows_affected_or_unimplemented [Fixture.updated] 2%nat
             (st := Fixture.stmt "CREATE" "UPDATE users SET name=?")
             [Fixture.arg 1 (VString "x")]
             (Fixture.world (Fixture.stmt "CREATE" "UPDATE users SET name=?") 0 O)
             eq_refl eq_refl eq_refl eq_refl); discriminate.
Defined.

(** C6 (as the code has it). On an open INSERT statement whose matched
    response neither fires the exec hook nor carries an error,
    [ExecContext] returns a fake result with one row affected and no error.
    Its last-insert-id is the registered [LastInsertID] when that is not
    zero, and no random number is drawn; when it is zero the id is the next
    output of [rand.Int63], drawn afresh by this call: a number in
    [0, 2^63), which the code does not test against zero. *)
Theorem C6_insert_result {U : Type} (Catcher : MockCatcher U) (s : loc)
    (st : FakeStmt.t) (args : list NamedValue) (w : World U) :
  stmts w !! s = Some st ->
  FakeStmt.closed st = false ->
  FakeStmt.command st = "INSERT" ->
  let fResp := FindResponse Catcher (FakeStmt.q st) args in
  fires (execHook fResp) (env w) = false ->
  Error fResp = None ->
  let r := ExecContext Catcher s args w in
  (LastInsertID fResp <> 0 ->
   r.1 = Returns (Some (Result.NewFakeResult (LastInsertID fResp) 1), None) /\
   rngPos r.2 = rngPos w)
  /\
  (LastInsertID fResp = 0 ->
   exists id,
     r.1 = Returns (Some (Result.NewFakeResult id 1), None) /\
     id = Z.land (rngSource w (rngPos w)) (2 ^ 63 - 1) /\
     0 <= id < 2 ^ 63 /\
     rngPos r.2 = S (rngPos w)).
Proof.
  intros Hst Hopen Hcmd fResp Hq He r. subst r.
  rewrite (ExecContext_dispatch Catcher s args w Hst Hopen Hq He).
  fold fResp. cbv zeta. rewrite Hcmd. cbn [String.eqb Ascii.eqb Bool.eqb andb].
  cbn match.
  pose proof (called_frame (Callback fResp) (FakeStmt.q st) args
                (answered AtExec (execHook fResp) (FakeStmt.q st) args w))
    as (_ & _ & _ & Hp & _).
  pose proof (answered_frame AtExec (execHook fResp)
                (FakeStmt.q st) args w) as (_ & _ & _ & Hp' & _).
  split.
  - intros Hid. apply Z.eqb_neq in Hid. rewrite Hid. cbn [fst snd].
    split; [reflexivity | congruence].
  - intros Hid. rewrite Hid. cbn [Z.eqb fst snd].
    eexists. split; [reflexivity|]. split; [reflexivity|]. split.
    + change (2 ^ 63 - 1) with (Z.ones 63). rewrite Z.land_ones by lia.
      apply Z.mod_pos_bound. lia.
    + reflexivity.
Qed.

Lemma C6_insert_result_witness :
  let stI := Fixture.stmt "INSERT" "INSERT INTO users" in
  ((ExecContext [Fixture.inserted 42] 2%nat [] (Fixture.world stI 12345 O)).1
   = Returns (Some (Result.NewFakeResult 42 1), None)) /\
  (exists id,
     (ExecContext [Fixture.inserted 0] 2%nat [] (Fixture.world stI 12345 O)).1
     = Returns (Some (Result.NewFakeResult id 1), None) /\
     id = 12345).
Proof.
  intros stI. split.
  - apply (C6_insert_result [Fixture.inserted 42] 2%nat (st := stI) []
             (Fixture.world stI 12345 O) eq_refl eq_refl eq_refl eq_refl eq_refl).
    discriminate.
  - destruct (C6_insert_result [Fixture.inserted 0] 2%nat (st := stI) []
                (Fixture.world stI 12345 O) eq_refl eq_refl eq_refl eq_refl eq_refl)
      as [_ H].
    destruct (H eq_refl) as (id & Hr & Hid & _).
    exists id. split; [exact Hr | exact Hid].
Defined.

(** C6, refuted as stated: with [LastInsertID] zero and a random source
    whose next output is zero, the id of the returned result is zero. *)
Lemma C6_generated_id_may_be_zero :
  let stI := Fixture.stmt "INSERT" "INSERT INTO users" in
  let fResp := FindResponse [Fixture.inserted 0] "INSERT INTO users" [] in
  (LastInsertID fResp = 0 /\ Error fResp = None) /\
  (ExecContext [Fixture.inserted 0] 2%nat [] (Fixture.world stI 0 O)).1
  = Returns (Some (Result.NewFakeResult 0 1), None) /\
  (ExecContext [Fixture.inserted 0] 2%nat [] (Fixture.world stI (2 ^ 63) O)).1
  = Returns (Some (Result.NewFakeResult 0 1), None).
Proof. vm_compute. repeat split; reflexivity. Qed.

(** C1 (as the code has it). When no registered response accepts the SQL
    text, an open statement answers from the empty response:
    [QueryContext] returns a cursor with no column and no row and no
    error; [ExecContext] returns zero rows affected and no error for
    UPDATE, DELETE and MERGE, a fake result with one row affected (and a
    generated id) for INSERT, and the unimplemented-command error for any
    other command. *)
Theorem C1_unmatched_uses_empty_response {U : Type}
    (beyond : string -> Value -> string) (Catcher : MockCatcher U)
    (s : loc) (st : FakeStmt.t) (args : list NamedValue) (w : World U) :
  stmts w !! s = Some st ->
  FakeStmt.closed st = false ->
  (unmatched Catcher (FakeStmt.q st) args ->
   let command := FakeStmt.command st in
   let r := (ExecContext Catcher s args w).1 in
   (command = "UPDATE" \/ command = "DELETE" \/ command = "MERGE" ->
    r = Returns (Some (Result.RowsAffected 0), None)) /\
   (command = "INSERT" ->
    r = Returns (Some (Result.NewFakeResult
                         (Z.land (rngSource w (rngPos w)) (2 ^ 63 - 1)) 1), None)) /\
   (command <> "INSERT" -> command <> "UPDATE" -> command <> "DELETE" ->
    command <> "MERGE" ->
    r = Returns (None, Some (ErrUnimplementedExec command))))
  /\
  (unmatched Catcher (substitute beyond (FakeStmt.q st) args) args ->
   (QueryContext beyond Catcher s args w).1
   = Returns (Some (newCursor [[]] []), None)).
Proof.
  intros Hst Hopen. split.
  - intros Hun command r. subst r.
    pose proof (FindResponse_unmatched Hun) as Hresp.
    rewrite (ExecContext_dispatch Catcher s args w Hst Hopen)
      by (rewrite Hresp; reflexivity).
    rewrite Hresp. fold command. cbv zeta. cbn [LastInsertID RowsAffected emptyResponse Z.eqb].
    repeat split.
    + intros Hcmd.
      assert (Hsw : String.eqb command "INSERT" = false /\
                    (String.eqb command "UPDATE" || String.eqb command "DELETE"
                     || String.eqb command "MERGE") = true).
      { destruct Hcmd as [-> | [-> | ->]]; split; reflexivity. }
      destruct Hsw as [-> ->]. reflexivity.
    + intros ->. reflexivity.
    + intros H1 H2 H3 H4.
      apply String.eqb_neq in H1, H2, H3, H4. rewrite H1, H2, H3, H4. reflexivity.
  - intros Hun.
    pose proof (FindResponse_unmatched Hun) as Hresp.
    rewrite (QueryContext_no_records beyond Catcher s args w Hst Hopen)
      by (rewrite Hresp; reflexivity).
    reflexivity.
Qed.

Lemma C1_unmatched_uses_empty_response_witness :
  let stU := Fixture.stmt "UPDATE" "UPDATE users SET name=?" in
  (ExecContext [Fixture.users] 2%nat [] (Fixture.world stU 0 O)).1
  = Returns (Some (Result.RowsAffected 0), None) /\
  (QueryContext Fixture.beyond [Fixture.users] 2%nat [] (Fixture.world stU 0 O)).1
  = Returns (Some (newCursor [[]] []), None).
Proof.
  intros stU.
  destruct (C1_unmatched_uses_empty_response Fixture.beyond [Fixture.users] 2%nat (st := stU) []
              (Fixture.world stU 0 O) eq_refl eq_refl) as [HE HQ].
  split.
  - apply HE.
    + repeat constructor.
    + left. reflexivity.
  - apply HQ. repeat constructor.
Defined.

(** C1, refuted as stated: with an empty catalog every text is unmatched,
    yet [ExecContext] returns an error for a CREATE statement, and one row
    affected, not zero, for an INSERT statement. *)
Lemma C1_unmatched_exec_may_fail :
  unmatched (U := nat) [] "CREATE TABLE t" [] /\
  (ExecContext [] 2%nat [] (Fixture.world (Fixture.stmt "CREATE" "CREATE TABLE t") 0 O)).1
  = Returns (None, Some (ErrUnimplementedExec "CREATE")) /\
  (ExecContext [] 2%nat [] (Fixture.world (Fixture.stmt "INSERT" "INSERT INTO t") 7 O)).1
  = Returns (Some (Result.NewFakeResult 7 1), None).
Proof. split; [constructor | split; vm_compute; reflexivity]. Qed.

(** C4 (as the code has it). On an open statement, the callback of the
    matched response runs exactly once per call when the hook of the call's
    direction does not fire and the response carries no error, with the
    text the catalog was asked about and the bound arguments; it does not
    run when the hook fires (the call returns [driver.ErrBadConn]) or when
    the response carries an error (the call returns that error itself).
    On the query path a call that runs the callback returns a cursor and no
    error.  On the exec path the callback runs before the switch on the
    command, whatever the command is. *)
Theorem C4_callback_once_past_hook_and_error {U : Type}
    (beyond : string -> Value -> string) (Catcher : MockCatcher U)
    (s : loc) (st : FakeStmt.t) (args : list NamedValue) (w : World U) :
  stmts w !! s = Some st ->
  FakeStmt.closed st = false ->
  (let fResp := FindResponse Catcher (FakeStmt.q st) args in
   let h := execHook fResp in
   let r := ExecContext Catcher s args w in
   (fires h (env w) = true ->
    r.1 = Returns (None, Some ErrBadConn) /\
    callbacks (log r.2) = callbacks (log w)) /\
   (forall e, fires h (env w) = false -> Error fResp = Some e ->
    r.1 = Returns (None, Some e) /\
    callbacks (log r.2) = callbacks (log w)) /\
   (fires h (env w) = false -> Error fResp = None ->
    match Callback fResp with
    | Some cb =>
        callbacks (log r.2) = S (callbacks (log w)) /\
        In (EvCallback (FakeStmt.q st) args) (log r.2) /\
        env r.2 = cb (FakeStmt.q st) args (envAfter h (env w))
    | None => callbacks (log r.2) = callbacks (log w)
    end))
  /\
  (let text := substitute beyond (FakeStmt.q st) args in
   let fResp := FindResponse Catcher text args in
   let h := queryHook fResp in
   let r := QueryContext beyond Catcher s args w in
   (fires h (env w) = true ->
    r.1 = Returns (None, Some ErrBadConn) /\
    callbacks (log r.2) = callbacks (log w)) /\
   (forall e, fires h (env w) = false -> Error fResp = Some e ->
    r.1 = Returns (None, Some e) /\
    callbacks (log r.2) = callbacks (log w)) /\
   (fires h (env w) = false -> Error fResp = None ->
    (exists cursor, r.1 = Returns (Some cursor, None)) /\
    match Callback fResp with
    | Some cb =>
        callbacks (log r.2) = S (callbacks (log w)) /\
        In (EvCallback text args) (log r.2) /\
        env r.2 = cb text args (envAfter h (env w))
    | None => callbacks (log r.2) = callbacks (log w)
    end)).
Proof.
  intros Hst Hopen. split.
  - intros fResp h r. subst r. repeat split.
    + rewrite (ExecContext_badconn Catcher s args w Hst Hopen H). reflexivity.
    + rewrite (ExecContext_badconn Catcher s args w Hst Hopen H). cbn [snd].
      apply callbacks_answered.
    + rewrite (ExecContext_error Catcher s args w Hst Hopen H H0). reflexivity.
    + rewrite (ExecContext_error Catcher s args w Hst Hopen H H0). cbn [snd].
      apply callbacks_answered.
    + intros Hq He.
      destruct (ExecContext_past_callback Catcher s args w Hst Hopen Hq He)
        as (tail & Hlog & Htail & _ & Henv & _).
      fold fResp h in Hlog, Henv.
      rewrite Hlog, Henv, callbacks_app, Htail, callbacks_called, callbacks_answered.
      rewrite log_called.
      destruct (Callback fResp) as [cb|]; [|lia].
      repeat split; [lia | |].
      * apply in_or_app. left. apply in_or_app. right. left. reflexivity.
      * cbn [called env emit with_env]. rewrite env_answered. reflexivity.
  - intros text fResp h r. subst r.
    destruct (rewritten_frame s st args text w) as (_ & He0 & _ & _ & _ & _ & Hl0).
    repeat split.
    + rewrite (QueryContext_badconn beyond Catcher s args w Hst Hopen H). fold text fResp. reflexivity.
    + rewrite (QueryContext_badconn beyond Catcher s args w Hst Hopen H). fold text fResp. cbn [snd].
      rewrite callbacks_answered, Hl0. reflexivity.
    + rewrite (QueryContext_error beyond Catcher s args w Hst Hopen H H0). fold text fResp. reflexivity.
    + rewrite (QueryContext_error beyond Catcher s args w Hst Hopen H H0). fold text fResp. cbn [snd].
      rewrite callbacks_answered, Hl0. reflexivity.
    + destruct (Response fResp) as [|first rest] eqn:Hr.
      * rewrite (QueryContext_no_records beyond Catcher s args w Hst Hopen H H0 Hr). fold text fResp.
        eexists. reflexivity.
      * rewrite (QueryContext_records beyond Catcher s args w Hst Hopen H H0 Hr). fold text fResp.
        eexists. reflexivity.
    + assert (Hfin : exists w1',
                 (QueryContext beyond Catcher s args w).2
                 = called (Callback fResp) text args w1' /\
                 callbacks (log w1') = callbacks (log w) /\
                 env w1' = envAfter h (env w)).
      { destruct (Response fResp) as [|first rest] eqn:Hr.
        - rewrite (QueryContext_no_records beyond Catcher s args w Hst Hopen H H0 Hr). fold text fResp.
          eexists. split; [reflexivity|]. split.
          + rewrite callbacks_answered, Hl0. reflexivity.
          + rewrite env_answered, He0. reflexivity.
        - rewrite (QueryContext_records beyond Catcher s args w Hst Hopen H H0 Hr). fold text fResp.
          eexists. split; [reflexivity|]. split.
          + cbn [log emit with_iterPos]. rewrite callbacks_app.
            rewrite callbacks_answered, Hl0. cbn. lia.
          + cbn [env emit with_iterPos]. rewrite env_answered, He0. reflexivity. }
      destruct Hfin as (w1' & -> & Hcb & Henv).
      rewrite callbacks_called, Hcb, log_called.
      destruct (Callback fResp) as [cb|]; [|lia].
      repeat split; [lia | | cbn; rewrite Henv; reflexivity].
      apply in_or_app. right. left. reflexivity.
Qed.

Lemma C4_callback_once_past_hook_and_error_witness :
  let stS := Fixture.stmt "SELECT" "SELECT * FROM users" in
  let w := Fixture.world stS 0 O in
  callbacks (log (QueryContext Fixture.beyond [Fixture.users] 2%nat [] w).2) = 1%nat /\
  env (QueryContext Fixture.beyond [Fixture.users] 2%nat [] w).2 = 1%nat /\
  ((QueryContext Fixture.beyond [Fixture.failing "SELECT * FROM users"] 2%nat [] w).1
   = Returns (None, Some (ErrOther "boom")) /\
   callbacks (log (QueryContext Fixture.beyond [Fixture.failing "SELECT * FROM users"] 2%nat [] w).2)
   = O).
Proof.
  intros stS w.
  destruct (C4_callback_once_past_hook_and_error Fixture.beyond [Fixture.users] 2%nat
              (st := stS) [] w eq_refl eq_refl) as [_ HQ].
  destruct HQ as (_ & _ & Hok).
  destruct (Hok eq_refl eq_refl) as (_ & Hn & _ & Henv).
  destruct (C4_callback_once_past_hook_and_error Fixture.beyond
              [Fixture.failing "SELECT * FROM users"] 2%nat
              (st := stS) [] w eq_refl eq_refl) as [_ HQ'].
  destruct HQ' as (_ & Herr & _).
  split; [exact Hn | split; [exact Henv | exact (Herr (ErrOther "boom") eq_refl eq_refl)]].
Defined.

(** C4, refuted as stated: a SELECT statement run through [ExecContext]
    matches a response with a callback; the callback is invoked and the
    call returns the unimplemented-command error. *)
Lemma C4_callback_runs_before_failing_switch :
  let w := Fixture.world (Fixture.stmt "SELECT" "SELECT 1") 0 O in
  let r := ExecContext [Fixture.watched "SELECT 1"] 2%nat [] w in
  r.1 = Returns (None, Some (ErrUnimplementedExec "SELECT")) /\
  log r.2 = [EvFindResponse "SELECT 1" []; EvCallback "SELECT 1" []] /\
  callbacks (log r.2) = 1%nat /\
  env r.2 = 1%nat.
Proof. vm_compute. repeat split; reflexivity. Qed.

(** C2 (as the code has it). On an open statement whose matched response
    holds at least one record, fires no query hook and carries no error,
    [QueryContext] returns a cursor and no error.  The cursor's columns are
    the keys of the first record, each once, in the order in which this
    run's [range] over that Go map visits them: an order the runtime
    chooses, not the order of insertion.  The cursor holds one result set
    with one row per record, every row as wide as the column list, and row
    [i] holds at the position of column [c] the value record [i] has for
    [c], or [nil] when [c] is not a key of record [i]. *)
Theorem C2_cursor_of_records {U : Type}
    (beyond : string -> Value -> string) (Catcher : MockCatcher U) (s : loc)
    (st : FakeStmt.t) (args : list NamedValue) (w : World U)
    (first : gmap string Value) (rest : list (gmap string Value)) :
  stmts w !! s = Some st ->
  FakeStmt.closed st = false ->
  let text := substitute beyond (FakeStmt.q st) args in
  let fResp := FindResponse Catcher text args in
  fires (queryHook fResp) (env w) = false ->
  Error fResp = None ->
  Response fResp = first :: rest ->
  exists cursor rows,
    (QueryContext beyond Catcher s args w).1 = Returns (Some cursor, None) /\
    RowsCursor.cols cursor = rangeKeys (iterSeed w (iterPos w)) first /\
    NoDup (RowsCursor.cols cursor) /\
    (forall c, c ∈ RowsCursor.cols cursor <-> is_Some (first !! c)) /\
    RowsCursor.rows cursor = [rows] /\
    length rows = length (first :: rest) /\
    (forall i record,
        (first :: rest) !! i = Some record ->
        exists r,
          rows !! i = Some r /\
          length (row.cols r) = length (RowsCursor.cols cursor) /\
          forall j c,
            RowsCursor.cols cursor !! j = Some c ->
            row.cols r !! j = Some (match record !! c with
                                    | Some v => v
                                    | None => VNil
                                    end)).
Proof.
  intros Hst Hopen text fResp Hq He Hr.
  rewrite (QueryContext_records beyond Catcher s args w Hst Hopen Hq He Hr).
  cbv zeta. cbn [fst].
  set (keys := rangeKeys (iterSeed w (iterPos w)) first).
  assert (Hnd : NoDup keys) by apply rangeKeys_NoDup.
  rewrite collectColumns_names, buildRows_map.
  eexists _, _. split; [reflexivity|]. cbn [RowsCursor.cols RowsCursor.rows newCursor].
  split; [reflexivity|]. split; [exact Hnd|].
  split; [intros c; apply rangeKeys_elem|].
  split; [reflexivity|]. split; [apply length_fmap|].
  intros i record Hi.
  exists (row.mk (cell record <$> keys)). split.
  - rewrite list_lookup_fmap, Hi. cbn. f_equal.
    rewrite <- (collectColumns_names keys) at 2. apply buildRow_cells. exact Hnd.
  - cbn [row.cols]. split; [apply length_fmap|].
    intros j c Hj. rewrite list_lookup_fmap, Hj. reflexivity.
Qed.

Lemma C2_cursor_of_records_witness :
  let stS := Fixture.stmt "SELECT" "SELECT * FROM users" in
  exists cursor rows,
    (QueryContext Fixture.beyond [Fixture.ragged] 2%nat [] (Fixture.world stS 0 O)).1
    = Returns (Some cursor, None) /\
    RowsCursor.cols cursor = ["id"; "name"] /\
    RowsCursor.rows cursor = [rows] /\
    length rows = 2%nat.
Proof.
  intros stS.
  destruct (C2_cursor_of_records Fixture.beyond [Fixture.ragged] 2%nat (st := stS) []
              (Fixture.world stS 0 O)
              (first := Fixture.user 1 "a") (rest := [<["id" := VInt64 2]> ∅])
              eq_refl eq_refl eq_refl eq_refl eq_refl)
    as (cursor & rows & Hr & Hc & _ & _ & Hrows & Hlen & _).
  exists cursor, rows.
  split; [exact Hr | split; [exact Hc | split; [exact Hrows | exact Hlen]]].
Defined.

(** C2, refuted as stated: the two records were built by inserting ["id"]
    before ["name"], and the same call on the same catalog yields the
    columns [name, id] under one choice of the runtime and [id, name]
    under another. *)
Lemma C2_column_order_is_the_runtime_s :
  let stS := Fixture.stmt "SELECT" "SELECT * FROM users" in
  (QueryContext Fixture.beyond [Fixture.users] 2%nat [] (Fixture.world stS 0 1%nat)).1
  = Returns (Some (RowsCursor.mk (-1)
                     [[row.mk [VString "a"; VInt64 1];
                       row.mk [VString "b"; VInt64 2]]]
                     ["name"; "id"] [] (-1) false), None) /\
  (QueryContext Fixture.beyond [Fixture.users] 2%nat [] (Fixture.world stS 0 O)).1
  = Returns (Some (RowsCursor.mk (-1)
                     [[row.mk [VInt64 1; VString "a"];
                       row.mk [VInt64 2; VString "b"]]]
                     ["id"; "name"] [] (-1) false), None).
Proof. vm_compute. split; reflexivity. Qed.

(** C9. For a transaction on a live connection, [Commit] and [Rollback]
    first set the connection's current-transaction reference to [nil] and
    then consult their package-level hook, when one is set, exactly once.
    The call returns [driver.ErrBadConn] when the hook exists and returns
    true and [nil] otherwise; in both cases the reference stays cleared.
    The connection's [db], every other connection, every statement and the
    random sources are left as they were, and without a hook the test
    program's state is as well. *)
Theorem C9_commit_rollback {U : Type} (commitHook rollbackHook : option (Hook U))
    (tx : FakeTx.t) (c : loc) (cn : FakeConn.t) (w : World U) :
  FakeTx.c tx = Some c ->
  conns w !! c = Some cn ->
  (let r := Commit commitHook tx w in
   r.1 = Returns (if fires commitHook (env w) then Some ErrBadConn else None) /\
   conns r.2 = <[c := FakeConn.mk (FakeConn.db cn) None]> (conns w) /\
   log r.2 = log w ++ EvClearCurrTx c ::
                      match commitHook with
                      | Some h => [EvHook AtCommit (h (env w)).1]
                      | None => []
                      end /\
   env r.2 = envAfter commitHook (env w) /\
   stmts r.2 = stmts w /\ rngSource r.2 = rngSource w /\ rngPos r.2 = rngPos w /\
   iterSeed r.2 = iterSeed w /\ iterPos r.2 = iterPos w)
  /\
  (let r := Rollback rollbackHook tx w in
   r.1 = Returns (if fires rollbackHook (env w) then Some ErrBadConn else None) /\
   conns r.2 = <[c := FakeConn.mk (FakeConn.db cn) None]> (conns w) /\
   log r.2 = log w ++ EvClearCurrTx c ::
                      match rollbackHook with
                      | Some h => [EvHook AtRollback (h (env w)).1]
                      | None => []
                      end /\
   env r.2 = envAfter rollbackHook (env w) /\
   stmts r.2 = stmts w /\ rngSource r.2 = rngSource w /\ rngPos r.2 = rngPos w /\
   iterSeed r.2 = iterSeed w /\ iterPos r.2 = iterPos w).
Proof.
  intros Hc Hcn. split; cbv zeta.
  - rewrite (Commit_run commitHook tx w Hc Hcn). cbn [fst snd].
    destruct (hooked_frame AtCommit commitHook (cleared c cn w))
      as (-> & -> & -> & -> & -> & ->).
    rewrite log_hooked. unfold cleared. cbn [log emit with_conns env conns].
    rewrite <- app_assoc. cbn [app].
    repeat split. unfold hooked, envAfter. destruct commitHook; reflexivity.
  - rewrite (Rollback_run rollbackHook tx w Hc Hcn). cbn [fst snd].
    destruct (hooked_frame AtRollback rollbackHook (cleared c cn w))
      as (-> & -> & -> & -> & -> & ->).
    rewrite log_hooked. unfold cleared. cbn [log emit with_conns env conns].
    rewrite <- app_assoc. cbn [app].
    repeat split. unfold hooked, envAfter. destruct rollbackHook; reflexivity.
Qed.

Lemma C9_commit_rollback_witness :
  let w := Fixture.world Fixture.closedStmt 0 O in
  ((Commit (Some Fixture.hookTrue) Fixture.tx w).1 = Returns (Some ErrBadConn) /\
   conns (Commit (Some Fixture.hookTrue) Fixture.tx w).2 !! 1%nat
   = Some (FakeConn.mk (Some 9%nat) None) /\
   log (Commit (Some Fixture.hookTrue) Fixture.tx w).2
   = [EvClearCurrTx 1%nat; EvHook AtCommit true]) /\
  ((Rollback None Fixture.tx w).1 = Returns None /\
   conns (Rollback None Fixture.tx w).2 !! 1%nat
   = Some (FakeConn.mk (Some 9%nat) None) /\
   log (Rollback (U := nat) None Fixture.tx w).2 = [EvClearCurrTx 1%nat]).
Proof.
  intros w.
  destruct (C9_commit_rollback (Some Fixture.hookTrue) None Fixture.tx
              (c := 1%nat) (cn := Fixture.conn) w eq_refl eq_refl)
    as [(H1 & H2 & H3 & _) (H4 & H5 & H6 & _)].
  split.
  - split; [exact H1 | split; [rewrite H2; reflexivity | exact H3]].
  - split; [exact H4 | split; [rewrite H5; reflexivity | exact H6]].
Defined.

(** C10 (as the code has it). When the statement and every statement
    reached from it through [next] has a connection whose [db] is set,
    [Close] returns [nil], open or closed beforehand, and leaves the
    closed flag of each of them set and everything else as it was.  When
    the statement's connection is [nil], or the connection's [db] is,
    [Close] panics and changes nothing.  When this is so for a statement
    [t] further down, whatever the number of statements [pre] before it,
    [Close] panics with the message of [t], leaves the closed flag of
    every statement of [pre] set, and leaves [t] and everything else as it
    was. *)
Theorem C10_close_chain {U : Type} (s : loc) (w : World U) :
  (forall ls fuel,
      chain w s ls -> (length ls <= fuel)%nat ->
      let r := Close fuel s w in
      r.1 = Returns None /\
      (forall l, l ∈ ls ->
                 exists st, stmts w !! l = Some st /\
                            stmts r.2 !! l = Some (FakeStmt.with_closed true st)) /\
      (forall l, l ∉ ls -> stmts r.2 !! l = stmts w !! l) /\
      conns r.2 = conns w /\ env r.2 = env w /\ log r.2 = log w)
  /\
  (forall fuel st,
      stmts w !! s = Some st -> FakeStmt.connection st = None ->
      Close (S fuel) s w = (Panics "nil conn in FakeStmt.Close", w))
  /\
  (forall fuel st c cn,
      stmts w !! s = Some st -> FakeStmt.connection st = Some c ->
      conns w !! c = Some cn -> FakeConn.db cn = None ->
      Close (S fuel) s w
      = (Panics "in FakeStmt.Close, conn's db is nil (already closed)", w))
  /\
  (forall pre t msg fuel,
      leads w s pre t -> guardFails w t msg -> (length pre < fuel)%nat ->
      let r := Close fuel s w in
      r.1 = Panics msg /\
      (forall l, l ∈ pre ->
                 exists st, stmts w !! l = Some st /\
                            stmts r.2 !! l = Some (FakeStmt.with_closed true st)) /\
      (forall l, l ∉ pre -> stmts r.2 !! l = stmts w !! l) /\
      (t ∉ pre) /\
      conns r.2 = conns w /\ env r.2 = env w /\ log r.2 = log w).
Proof.
  split; [|split; [|split]]; cycle 3.
  - intros pre t msg fuel Hl Hg Hfuel. cbv zeta.
    rewrite (Close_leads Hl Hg Hfuel). cbn [fst snd stmts with_stmts].
    split; [reflexivity|]. split; [|split; [|split; [|repeat split]]].
    + intros l Hin. rewrite closeAll_lookup, decide_True by exact Hin.
      destruct (leads_allocated Hl Hin) as [st Hst].
      exists st. rewrite Hst. split; reflexivity.
    + intros l Hin. rewrite closeAll_lookup, decide_False by exact Hin. reflexivity.
    + exact (leads_before Hl Hg).
  - intros ls fuel Hch Hfuel. cbv zeta.
    rewrite (Close_chain Hch Hfuel). cbn [fst snd stmts with_stmts].
    split; [reflexivity|]. split; [|split; [|repeat split]].
    + intros l Hl. rewrite closeAll_lookup, decide_True by exact Hl.
      assert (Hsome : is_Some (stmts w !! l)).
      { clear Hfuel. induction Hch as [a st ? ? ? Ha|a st ? ? ? n ls Ha ? ? ? ? ? IH].
        - apply list_elem_of_singleton in Hl as ->. eauto.
        - apply elem_of_cons in Hl as [->|Hl]; [eauto | by apply IH]. }
      destruct Hsome as [st Hst]. exists st. rewrite Hst. split; reflexivity.
    + intros l Hl. rewrite closeAll_lookup, decide_False by exact Hl. reflexivity.
  - intros fuel st Hs Hc. exact (Close_nil_connection fuel s w Hs Hc).
  - intros fuel st c cn Hs Hc Hcn Hd. exact (Close_nil_db fuel s w Hs Hc Hcn Hd).
Qed.

Lemma C10_close_chain_witness :
  let r := Close 2 2%nat Fixture.goodChain in
  r.1 = Returns None /\
  FakeStmt.closed <$> stmts r.2 !! 2%nat = Some true /\
  FakeStmt.closed <$> stmts r.2 !! 3%nat = Some true /\
  Close 1 2%nat (Fixture.world (FakeStmt.mk None "" "" None false [] [] 0) 0 O)
  = (Panics "nil conn in FakeStmt.Close",
     Fixture.world (FakeStmt.mk None "" "" None false [] [] 0) 0 O) /\
  let r' := Close 3 2%nat Fixture.longBrokenChain in
  r'.1 = Panics "in FakeStmt.Close, conn's db is nil (already closed)" /\
  FakeStmt.closed <$> stmts r'.2 !! 2%nat = Some true /\
  FakeStmt.closed <$> stmts r'.2 !! 3%nat = Some true /\
  FakeStmt.closed <$> stmts r'.2 !! 4%nat = Some false.
Proof.
  intros r.
  destruct (C10_close_chain 2%nat Fixture.goodChain) as [H _].
  assert (Hch : chain Fixture.goodChain 2%nat [2%nat; 3%nat]).
  { eapply chain_next with (c := 1%nat) (n := 3%nat); try reflexivity.
    eapply chain_last with (c := 1%nat); reflexivity. }
  destruct (H [2%nat; 3%nat] 2%nat Hch (le_n 2)) as (H1 & H2 & _).
  split; [exact H1|].
  destruct (H2 2%nat) as (st2 & _ & E2); [left|].
  destruct (H2 3%nat) as (st3 & _ & E3); [right; left|].
  split; [exact (f_equal (fmap FakeStmt.closed) E2)|].
  split; [exact (f_equal (fmap FakeStmt.closed) E3)|].
  destruct (C10_close_chain 2%nat
              (Fixture.world (FakeStmt.mk None "" "" None false [] [] 0) 0 O))
    as (_ & Hnil & _).
  split; [exact (Hnil O _ eq_refl eq_refl)|].
  intros r'.
  destruct (C10_close_chain 2%nat Fixture.longBrokenChain) as (_ & _ & _ & Hdown).
  assert (Hl : leads Fixture.longBrokenChain 2%nat [2%nat; 3%nat] 4%nat).
  { eapply leads_step with (c := 1%nat) (n := 3%nat); try reflexivity.
    eapply leads_step with (c := 1%nat) (n := 4%nat); try reflexivity.
    apply leads_here. }
  assert (Hg : guardFails Fixture.longBrokenChain 4%nat
                 "in FakeStmt.Close, conn's db is nil (already closed)").
  { right. eexists _, 7%nat, _. repeat split; reflexivity. }
  destruct (Hdown [2%nat; 3%nat] 4%nat _ 3%nat Hl Hg (le_n 3))
    as (G1 & G2 & G3 & G4 & _).
  split; [exact G1|].
  destruct (G2 2%nat) as (s2 & _ & F2); [left|].
  destruct (G2 3%nat) as (s3 & _ & F3); [right; left|].
  split; [exact (f_equal (fmap FakeStmt.closed) F2)|].
  split; [exact (f_equal (fmap FakeStmt.closed) F3)|].
  exact (f_equal (fmap FakeStmt.closed) (G3 4%nat G4)).
Defined.

(** C10, refuted as stated: statement 2 has a connection whose [db] is
    set, and its [next] statement has no connection.  [Close] on
    statement 2 sets its closed flag and then panics in the chained call,
    whatever the recursion budget. *)
Lemma C10_close_panics_in_chained_statement :
  (exists st cn,
      stmts Fixture.brokenChain !! 2%nat = Some st /\
      FakeStmt.connection st = Some 1%nat /\
      conns Fixture.brokenChain !! 1%nat = Some cn /\
      FakeConn.db cn = Some 9%nat) /\
  (forall fuel : nat,
      (Close (S (S fuel)) 2%nat Fixture.brokenChain).1
      = Panics "nil conn in FakeStmt.Close") /\
  FakeStmt.closed <$> stmts (Close 2 2%nat Fixture.brokenChain).2 !! 2%nat
  = Some true.
Proof.
  split; [|split].
  - eexists _, _. repeat split; reflexivity.
  - intros fuel. vm_compute. reflexivity.
  - vm_compute. reflexivity.
Qed.

(** ** Argument substitution *)

Section Substitution.
Import GoStrings.

Lemma count_app c (a b : string) : count c (a +:+ b) = (count c a + count c b)%nat.
Proof. induction a as [|d a IH]; simpl; [reflexivity | rewrite IH; lia]. Qed.

Lemma free_of_cons c d (rest : string) :
  free_of c (String d rest) <-> Ascii.eqb d c = false /\ free_of c rest.
Proof.
  unfold free_of. simpl. destruct (Ascii.eqb d c); simpl.
  - split; [discriminate | intros [? _]; discriminate].
  - split; [intros H; split; [reflexivity | exact H] | intros [_ H]; exact H].
Qed.

Lemma placeholdersFilled_nil text : placeholdersFilled text [] = text.
Proof.
  induction text as [|c rest IH]; simpl; [reflexivity|].
  destruct (Ascii.eqb c "?"); [reflexivity | by rewrite IH].
Qed.

Lemma placeholdersFilled_app v rest vals :
  free_of "?" v ->
  placeholdersFilled (v +:+ rest) vals = v +:+ placeholdersFilled rest vals.
Proof.
  induction v as [|c v IH]; simpl; [reflexivity|].
  intros [Hc Hv]%free_of_cons. rewrite Hc, IH by exact Hv. reflexivity.
Qed.

Lemma placeholdersFilled_step text v vs :
  free_of "?" v ->
  placeholdersFilled (placeholdersFilled text [v]) vs = placeholdersFilled text (v :: vs).
Proof.
  intros Hv. induction text as [|c rest IH]; simpl; [reflexivity|].
  destruct (Ascii.eqb c "?") eqn:Hc.
  - rewrite placeholdersFilled_nil. by apply placeholdersFilled_app.
  - simpl. rewrite Hc, IH. reflexivity.
Qed.

Lemma placeholdersFilled_free text v :
  free_of "%" text -> free_of "%" v -> free_of "%" (placeholdersFilled text [v]).
Proof.
  intros Ht Hv. induction text as [|c rest IH]; simpl; [exact Ht|].
  apply free_of_cons in Ht as [Hc Hrest].
  destruct (Ascii.eqb c "?").
  - rewrite placeholdersFilled_nil. unfold free_of in *. rewrite count_app. lia.
  - apply free_of_cons. split; [exact Hc | by apply IH].
Qed.

Lemma placeholdersFilled_count text v :
  free_of "?" v ->
  count "?" (placeholdersFilled text [v]) = pred (count "?" text).
Proof.
  intros Hv. induction text as [|c rest IH]; simpl; [reflexivity|].
  destruct (Ascii.eqb c "?") eqn:Hc; simpl.
  - rewrite placeholdersFilled_nil, count_app. unfold free_of in Hv. lia.
  - rewrite Hc. exact IH.
Qed.

(** A format without [%] is written out as it is. *)
Lemma doPrintf_plain text :
  free_of "%" text -> Fmt.doPrintf text None = Some text.
Proof.
  induction text as [|c rest IH]; simpl; [reflexivity|].
  intros [Hc Hrest]%free_of_cons. rewrite Hc, IH by exact Hrest. reflexivity.
Qed.

(** One iteration of the loop on a text without [%] that still has a
    placeholder: the first placeholder becomes the rendering. *)
Lemma doPrintf_first_placeholder text v :
  free_of "%" text -> (1 <= count "?" text)%nat ->
  Fmt.doPrintf (ReplaceFirstPlaceholder text) (Some v)
  = Some (placeholdersFilled text [Fmt.render v]).
Proof.
  induction text as [|c rest IH]; simpl; [lia|].
  intros [Hc Hrest]%free_of_cons Hn.
  destruct (Ascii.eqb c "?") eqn:Hq; simpl.
  - rewrite placeholdersFilled_nil, doPrintf_plain by exact Hrest. reflexivity.
  - rewrite Hc, IH by (exact Hrest || lia). reflexivity.
Qed.

Lemma Sprintf_first_placeholder beyond text v :
  free_of "%" text -> (1 <= count "?" text)%nat ->
  Fmt.Sprintf beyond (ReplaceFirstPlaceholder text) v
  = placeholdersFilled text [Fmt.render v].
Proof.
  intros Ht Hn. unfold Fmt.Sprintf.
  rewrite doPrintf_first_placeholder by assumption. reflexivity.
Qed.

(** On a text without [%] that has a placeholder for every argument, and
    arguments whose renderings hold neither [?] nor [%], the loop computes
    what the specification describes. *)
Lemma substitute_fills_placeholders beyond args : forall text,
  free_of "%" text ->
  Forall (fun a => free_of "?" (Fmt.render (NValue a)) /\
                   free_of "%" (Fmt.render (NValue a))) args ->
  (length args <= count "?" text)%nat ->
  substitute beyond text args
  = placeholdersFilled text ((fun a => Fmt.render (NValue a)) <$> args).
Proof.
  induction args as [|a args IH]; intros text Ht Hargs Hn; simpl.
  - by rewrite placeholdersFilled_nil.
  - apply Forall_cons in Hargs as [[Hq Hp] Hargs]. simpl in Hn.
    rewrite Sprintf_first_placeholder by (exact Ht || lia).
    rewrite IH.
    + by rewrite placeholdersFilled_step.
    + by apply placeholdersFilled_free.
    + exact Hargs.
    + rewrite placeholdersFilled_count by exact Hq. lia.
Qed.

End Substitution.

Section Rewriting.
Context {U : Type} (beyond : string -> Value -> string) (Catcher : MockCatcher U).

(** [ExecContext] never writes to a statement, and asks the catalog about
    the stored text as it is. *)
Lemma ExecContext_keeps_statements s args (w : World U) :
  stmts (ExecContext Catcher s args w).2 = stmts w.
Proof.
  destruct (stmts w !! s) as [st|] eqn:Hst.
  2:{ unfold ExecContext, bind, loadStmt. rewrite Hst. reflexivity. }
  destruct (FakeStmt.closed st) eqn:Hc.
  { rewrite (ExecContext_closed Catcher s args w Hst Hc). reflexivity. }
  pose proof (answered_frame AtExec
                (execHook (FindResponse Catcher (FakeStmt.q st) args))
                (FakeStmt.q st) args w) as (_ & Hs & _).
  destruct (fires (execHook (FindResponse Catcher (FakeStmt.q st) args)) (env w)) eqn:Hf.
  { rewrite (ExecContext_badconn Catcher s args w Hst Hc Hf). exact Hs. }
  destruct (Error (FindResponse Catcher (FakeStmt.q st) args)) as [e|] eqn:He.
  { rewrite (ExecContext_error Catcher s args w Hst Hc Hf He). exact Hs. }
  destruct (ExecContext_past_callback Catcher s args w Hst Hc Hf He)
    as (tail & _ & _ & _ & _ & ->).
  destruct (called_frame (Callback (FindResponse Catcher (FakeStmt.q st) args))
              (FakeStmt.q st) args
              (answered AtExec
                 (execHook (FindResponse Catcher (FakeStmt.q st) args))
                 (FakeStmt.q st) args w)) as (_ & -> & _).
  exact Hs.
Qed.

(** [QueryContext] on an open statement leaves the substituted text in the
    statement before it asks the catalog, whatever the response is. *)
Lemma QueryContext_rewrites s st args (w : World U) :
  stmts w !! s = Some st ->
  FakeStmt.closed st = false ->
  let text := substitute beyond (FakeStmt.q st) args in
  stmts (QueryContext beyond Catcher s args w).2 = stmts (rewritten s st args text w) /\
  exists tail, log (QueryContext beyond Catcher s args w).2
               = log w ++ EvFindResponse text args :: tail.
Proof.
  intros Hst Hopen text.
  set (fResp := FindResponse Catcher text args).
  set (w0 := rewritten s st args text w).
  pose proof (answered_frame AtQuery (queryHook fResp) text args w0)
    as (_ & Hs & _).
  pose proof (log_answered AtQuery (queryHook fResp) text args w0) as Hl.
  destruct (rewritten_frame s st args text w) as (_ & _ & _ & _ & _ & _ & Hl0).
  fold w0 in Hl0. rewrite Hl0 in Hl.
  destruct (fires (queryHook fResp) (env w)) eqn:Hf.
  { rewrite (QueryContext_badconn beyond Catcher s args w Hst Hopen Hf).
    split; [exact Hs | eexists; exact Hl]. }
  destruct (Error fResp) as [e|] eqn:He.
  { rewrite (QueryContext_error beyond Catcher s args w Hst Hopen Hf He).
    split; [exact Hs | eexists; exact Hl]. }
  destruct (Response fResp) as [|first rest] eqn:Hr.
  - rewrite (QueryContext_no_records beyond Catcher s args w Hst Hopen Hf He Hr).
    cbn [snd].
    match goal with |- stmts (called ?cb ?t ?a ?x) = _ /\ _ =>
      destruct (called_frame cb t a x) as (_ & -> & _); rewrite log_called end.
    fold text fResp w0. split; [exact Hs|]. rewrite Hl.
    rewrite <- app_assoc. eexists. reflexivity.
  - rewrite (QueryContext_records beyond Catcher s args w Hst Hopen Hf He Hr).
    cbv zeta. cbn [snd].
    match goal with |- stmts (called ?cb ?t ?a ?x) = _ /\ _ =>
      destruct (called_frame cb t a x) as (_ & -> & _); rewrite log_called end.
    cbn [stmts log emit with_iterPos]. fold text fResp w0.
    split; [exact Hs|]. rewrite Hl. rewrite <- !app_assoc. eexists. reflexivity.
Qed.

End Rewriting.

(** C8 (the code at a failing input). The statement holds two
    placeholders and is queried with the arguments ["x?"] and ["y"].  The
    specification's substitution gives [a = x? AND b = y]; the loop of
    [QueryContext] puts the second argument into the question mark of the
    first one's rendering and leaves the second placeholder: the statement
    then holds [a = xy AND b = ?], and this is the text the catalog is
    asked about.  [ExecContext] on the same input leaves the statement as
    it is.  Both formats stay inside the modelled fragment of [fmt]. *)
Theorem C8_substitution_swallows_placeholder (beyond : string -> Value -> string) :
  let text := "SELECT * FROM t WHERE a = ? AND b = ?" in
  let args := [Fixture.arg 1 (VString "x?"); Fixture.arg 2 (VString "y")] in
  let w := Fixture.world (Fixture.stmt "SELECT" text) 0 O in
  let r := QueryContext beyond [] 2%nat args w in
  placeholdersFilled text ((fun a => Fmt.render (NValue a)) <$> args)
  = "SELECT * FROM t WHERE a = x? AND b = y" /\
  FakeStmt.q <$> stmts r.2 !! 2%nat = Some "SELECT * FROM t WHERE a = xy AND b = ?" /\
  log r.2 = [EvFindResponse "SELECT * FROM t WHERE a = xy AND b = ?" args] /\
  stmts (ExecContext [] 2%nat args w).2 = stmts w.
Proof.
  cbv zeta. split; [vm_compute; reflexivity|].
  split; [vm_compute; reflexivity|].
  split; [vm_compute; reflexivity|].
  apply ExecContext_keeps_statements.
Qed.

(** The same loop on benign input, as the specification describes it. *)
Example substitution_on_benign_input :
  substitute Fixture.beyond "SELECT * FROM t WHERE a = ? AND b = ?"
             [Fixture.arg 1 (VInt64 (-5)); Fixture.arg 2 (VString "y")]
  = "SELECT * FROM t WHERE a = -5 AND b = y".
Proof. vm_compute. reflexivity. Qed.

(** Arguments without a placeholder to take them, as with [$1]-style
    parameters, end up in the text as [fmt]'s note about extra operands. *)
Example substitution_without_placeholder :
  substitute Fixture.beyond "SELECT * FROM t WHERE a = $1" [Fixture.arg 1 (VInt64 5)]
  = "SELECT * FROM t WHERE a = $1%!(EXTRA int64=5)".
Proof. vm_compute. reflexivity. Qed.

(** The scenario of the specification: two users, in order. *)
Example scenario_select_users :
  (QueryContext Fixture.beyond [Fixture.users] 2%nat []
     (Fixture.world (Fixture.stmt "SELECT" "SELECT * FROM users") 0 O)).1
  = Returns (Some (RowsCursor.mk (-1)
                     [[row.mk [VInt64 1; VString "a"];
                       row.mk [VInt64 2; VString "b"]]]
                     ["id"; "name"] [] (-1) false), None).
Proof. vm_compute. reflexivity. Qed.

(** The scenario of the specification: an UPDATE with one bound argument
    and [RowsAffected] 3. *)
Example scenario_update_users :
  (ExecContext [Fixture.updated] 2%nat [Fixture.arg 1 (VString "x")]
     (Fixture.world (Fixture.stmt "UPDATE" "UPDATE users SET name=?") 0 O)).1
  = Returns (Some (Result.RowsAffected 3), None).
Proof. vm_compute. reflexivity. Qed.

(** ** Further properties of the code *)

(** *** Closing *)

Section MoreClosing.
Context {U : Type}.
Implicit Types (w : World U).

Lemma chain_closeAll ls : forall w s ls',
  chain w s ls' -> chain (with_stmts (closeAll ls (stmts w)) w) s ls'.
Proof.
  induction ls as [|a ls IH]; intros w s ls' Hch.
  - cbn [closeAll foldl]. rewrite with_stmts_same. exact Hch.
  - apply (chain_alter a) in Hch. apply IH in Hch. exact Hch.
Qed.

Lemma closeAll_twice ls (ss : gmap loc FakeStmt.t) :
  closeAll ls (closeAll ls ss) = closeAll ls ss.
Proof.
  apply map_eq. intros l. rewrite !closeAll_lookup.
  destruct (decide (l ∈ ls)); [|reflexivity].
  destruct (ss !! l) as [[]|]; reflexivity.
Qed.

Lemma chain_allocated w s ls l :
  chain w s ls -> l ∈ ls -> is_Some (stmts w !! l).
Proof.
  induction 1 as [a st ? ? ? Ha|a st ? ? ? n ls Ha ? ? ? ? ? IH]; intros Hl.
  - apply list_elem_of_singleton in Hl as ->. eauto.
  - apply elem_of_cons in Hl as [->|Hl]; [eauto | by apply IH].
Qed.

(** Any sequence of calls on a statement that is closed. *)
Lemma calls_on_closed beyond (Catcher : MockCatcher U) s st cs w :
  stmts w !! s = Some st -> FakeStmt.closed st = true ->
  calls beyond Catcher s cs w = (closedAnswer <$> cs, w).
Proof.
  intros Hst Hc. induction cs as [|c cs IH]; [reflexivity|].
  cbn [calls].
  assert (Hcall : call beyond Catcher s c w = (closedAnswer c, w)).
  { destruct c as [args|args]; unfold call.
    - rewrite (ExecContext_closed Catcher s args w Hst Hc). reflexivity.
    - rewrite (QueryContext_closed beyond Catcher s args w Hst Hc). reflexivity. }
  rewrite Hcall. cbn [fst snd]. rewrite IH. reflexivity.
Qed.

End MoreClosing.

(** X1. Closing twice: on a statement whose chain is sound, a second
    [Close] returns [nil] again and leaves the world exactly as the first
    [Close] left it. *)
Theorem X1_close_twice {U : Type} (s : loc) (ls : list loc) (fuel fuel' : nat)
    (w : World U) :
  chain w s ls ->
  (length ls <= fuel)%nat ->
  (length ls <= fuel')%nat ->
  let w1 := (Close fuel s w).2 in
  Close fuel' s w1 = (Returns None, w1).
Proof.
  intros Hch Hf Hf'. cbv zeta.
  rewrite (Close_chain Hch Hf). cbn [snd].
  rewrite (Close_chain (chain_closeAll ls Hch) Hf').
  cbn [stmts with_stmts]. rewrite closeAll_twice. reflexivity.
Qed.

Lemma X1_close_twice_witness :
  Close 5 2%nat (Close 2 2%nat Fixture.goodChain).2
  = (Returns None, (Close 2 2%nat Fixture.goodChain).2).
Proof.
  assert (Hch : chain Fixture.goodChain 2%nat [2%nat; 3%nat]).
  { eapply chain_next with (c := 1%nat) (n := 3%nat); try reflexivity.
    eapply chain_last with (c := 1%nat); reflexivity. }
  exact (X1_close_twice (fuel := 2) (fuel' := 5) Hch (le_n 2)
           (le_S _ _ (le_S _ _ (le_S _ _ (le_n 2))))).
Defined.

(** X2. After [Close] on a statement whose chain is sound, every
    [ExecContext] and [QueryContext] call on any statement of the chain,
    the chained ones included, returns [(nil, errClosed)] and changes
    nothing: the catalog is not asked and no hook or callback runs. *)
Theorem X2_calls_after_close {U : Type} (beyond : string -> Value -> string)
    (Catcher : MockCatcher U) (s l : loc) (ls : list loc) (fuel : nat)
    (cs : list Call) (w : World U) :
  chain w s ls ->
  (length ls <= fuel)%nat ->
  l ∈ ls ->
  let w1 := (Close fuel s w).2 in
  calls beyond Catcher l cs w1 = (closedAnswer <$> cs, w1).
Proof.
  intros Hch Hf Hl. cbv zeta.
  rewrite (Close_chain Hch Hf). cbn [snd].
  destruct (chain_allocated Hch Hl) as [st Hst].
  apply calls_on_closed with (st := FakeStmt.with_closed true st).
  - cbn [stmts with_stmts]. rewrite closeAll_lookup, decide_True, Hst by exact Hl.
    reflexivity.
  - reflexivity.
Qed.

Lemma X2_calls_after_close_witness :
  let w1 := (Close 2 2%nat Fixture.goodChain).2 in
  calls Fixture.beyond [Fixture.users] 3%nat
        [CallQuery []; CallExec [Fixture.arg 1 (VInt64 7)]] w1
  = ([QueryAnswer (Returns (None, Some errClosed));
      ExecAnswer (Returns (None, Some errClosed))], w1).
Proof.
  assert (Hch : chain Fixture.goodChain 2%nat [2%nat; 3%nat]).
  { eapply chain_next with (c := 1%nat) (n := 3%nat); try reflexivity.
    eapply chain_last with (c := 1%nat); reflexivity. }
  refine (X2_calls_after_close Fixture.beyond [Fixture.users] (l := 3%nat)
            [CallQuery []; CallExec [Fixture.arg 1 (VInt64 7)]] Hch (le_n 2) _).
  right. left.
Defined.

(** X3. [Close] is not atomic: when the statement's own connection is
    sound and the guard of its chained statement fails (a [nil] connection,
    or a connection whose [db] is [nil]), [Close] panics with the chained
    statement's message after it has set the closed flag of the statement
    itself; the chained statement is left as it was. *)
Theorem X3_close_panics_after_setting_flag {U : Type} (s n c d : loc)
    (st stn : FakeStmt.t) (cn : FakeConn.t) (fuel : nat) (w : World U) :
  stmts w !! s = Some st ->
  FakeStmt.connection st = Some c ->
  conns w !! c = Some cn ->
  FakeConn.db cn = Some d ->
  FakeStmt.next st = Some n ->
  stmts w !! n = Some stn ->
  (FakeStmt.connection stn = None \/
   exists c' cn', FakeStmt.connection stn = Some c' /\
                  conns w !! c' = Some cn' /\ FakeConn.db cn' = None) ->
  let r := Close (S (S fuel)) s w in
  r.1 = Panics (match FakeStmt.connection stn with
                | None => "nil conn in FakeStmt.Close"
                | Some _ => "in FakeStmt.Close, conn's db is nil (already closed)"
                end) /\
  stmts r.2 = <[s := FakeStmt.with_closed true st]> (stmts w) /\
  stmts r.2 !! n = Some stn /\
  conns r.2 = conns w.
Proof.
  intros Hs Hc Hcn Hd Hn Hsn Hbad.
  assert (Hne : n <> s).
  { intros ->. rewrite Hs in Hsn. injection Hsn as <-.
    destruct Hbad as [Hb | (c' & cn' & Hc' & Hcn' & Hd')]; [congruence|].
    rewrite Hc in Hc'. injection Hc' as <-. congruence. }
  set (w' := with_stmts (alter (FakeStmt.with_closed true) s (stmts w)) w).
  assert (Hsn' : stmts w' !! n = Some stn).
  { subst w'. cbn [stmts with_stmts]. rewrite lookup_alter_ne by congruence. exact Hsn. }
  assert (Hrun : Close (S (S fuel)) s w
                 = (Panics (match FakeStmt.connection stn with
                            | None => "nil conn in FakeStmt.Close"
                            | Some _ =>
                                "in FakeStmt.Close, conn's db is nil (already closed)"
                            end), w')).
  { remember (S fuel) as fuel1 eqn:Hfuel1. cbn [Close].
    run_step. rewrite Hc. run_step. rewrite Hd, Hn.
    erewrite bind_run by (apply (Close_flag _ _ Hs)). fold w'.
    unfold bind.
    destruct Hbad as [Hb | (c' & cn' & Hc' & Hcn' & Hd')].
    - subst fuel1. rewrite (Close_nil_connection fuel n w' Hsn' Hb), Hb. reflexivity.
    - subst fuel1. rewrite (Close_nil_db fuel n w' Hsn' Hc' Hcn' Hd'), Hc'.
      reflexivity. }
  cbv zeta. rewrite Hrun. cbn [fst snd].
  split; [reflexivity|]. split; [|split; [exact Hsn' | reflexivity]].
  subst w'. cbn [stmts with_stmts]. apply (alter_closed_insert _ _ Hs).
Qed.

Lemma X3_close_panics_after_setting_flag_witness :
  let r := Close 2 2%nat Fixture.brokenChain in
  r.1 = Panics "nil conn in FakeStmt.Close" /\
  stmts r.2
  = <[2%nat := FakeStmt.mk (Some 1%nat) "" "" (Some 3%nat) true [] [] 0]>
      (stmts Fixture.brokenChain).
Proof.
  destruct (@X3_close_panics_after_setting_flag nat 2%nat 3%nat 1%nat 9%nat
              (FakeStmt.mk (Some 1%nat) "" "" (Some 3%nat) false [] [] 0)
              (FakeStmt.mk None "" "" None false [] [] 0)
              Fixture.conn O Fixture.brokenChain
              eq_refl eq_refl eq_refl eq_refl eq_refl eq_refl
              (or_introl eq_refl)) as (H1 & H2 & _).
  split; [exact H1 | exact H2].
Defined.

(** *** What a call on a statement leaves alone *)

Section Frames.
Context {U : Type} (beyond : string -> Value -> string) (Catcher : MockCatcher U).
Implicit Types (w : World U).

Lemma ExecContext_frame s args w :
  conns (ExecContext Catcher s args w).2 = conns w /\
  stmts (ExecContext Catcher s args w).2 = stmts w /\
  rngSource (ExecContext Catcher s args w).2 = rngSource w /\
  iterSeed (ExecContext Catcher s args w).2 = iterSeed w /\
  iterPos (ExecContext Catcher s args w).2 = iterPos w.
Proof.
  destruct (stmts w !! s) as [st|] eqn:Hst.
  2:{ unfold ExecContext, bind, loadStmt. rewrite Hst. repeat split. }
  destruct (FakeStmt.closed st) eqn:Hc.
  { rewrite (ExecContext_closed Catcher s args w Hst Hc). repeat split. }
  set (fResp := FindResponse Catcher (FakeStmt.q st) args).
  pose proof (answered_frame AtExec (execHook fResp) (FakeStmt.q st) args w)
    as (F1 & F2 & F3 & _ & F5 & F6).
  destruct (fires (execHook fResp) (env w)) eqn:Hf.
  { rewrite (ExecContext_badconn Catcher s args w Hst Hc Hf). fold fResp.
    repeat split; assumption. }
  destruct (Error fResp) as [e|] eqn:He.
  { rewrite (ExecContext_error Catcher s args w Hst Hc Hf He). fold fResp.
    repeat split; assumption. }
  rewrite (ExecContext_dispatch Catcher s args w Hst Hc Hf He). fold fResp. cbv zeta.
  pose proof (called_frame (Callback fResp) (FakeStmt.q st) args
                (answered AtExec (execHook fResp) (FakeStmt.q st) args w))
    as (G1 & G2 & G3 & _ & G5 & G6).
  destruct (String.eqb (FakeStmt.command st) "INSERT");
    [destruct (Z.eqb (LastInsertID fResp) 0)
    |destruct (String.eqb (FakeStmt.command st) "UPDATE"
               || String.eqb (FakeStmt.command st) "DELETE"
               || String.eqb (FakeStmt.command st) "MERGE")];
    cbn [snd conns stmts rngSource iterSeed iterPos emit with_rngPos];
    repeat split; congruence.
Qed.

Lemma QueryContext_frame s args w :
  conns (QueryContext beyond Catcher s args w).2 = conns w /\
  rngSource (QueryContext beyond Catcher s args w).2 = rngSource w /\
  rngPos (QueryContext beyond Catcher s args w).2 = rngPos w /\
  iterSeed (QueryContext beyond Catcher s args w).2 = iterSeed w.
Proof.
  destruct (stmts w !! s) as [st|] eqn:Hst.
  2:{ unfold QueryContext, bind, loadStmt. rewrite Hst. repeat split. }
  destruct (FakeStmt.closed st) eqn:Hc.
  { rewrite (QueryContext_closed beyond Catcher s args w Hst Hc). repeat split. }
  set (text := substitute beyond (FakeStmt.q st) args).
  set (fResp := FindResponse Catcher text args).
  set (w0 := rewritten s st args text w).
  pose proof (rewritten_frame s st args text w) as (R1 & _ & R3 & R4 & R5 & _).
  fold w0 in R1, R3, R4, R5.
  pose proof (answered_frame AtQuery (queryHook fResp) text args w0)
    as (F1 & _ & F3 & F4 & F5 & _).
  destruct (fires (queryHook fResp) (env w)) eqn:Hf.
  { rewrite (QueryContext_badconn beyond Catcher s args w Hst Hc Hf).
    fold text fResp w0. cbn [snd]. repeat split; congruence. }
  destruct (Error fResp) as [e|] eqn:He.
  { rewrite (QueryContext_error beyond Catcher s args w Hst Hc Hf He).
    fold text fResp w0. cbn [snd]. repeat split; congruence. }
  destruct (Response fResp) as [|first rest] eqn:Hr.
  - rewrite (QueryContext_no_records beyond Catcher s args w Hst Hc Hf He Hr).
    fold text fResp w0. cbn [snd].
    pose proof (called_frame (Callback fResp) text args
                  (answered AtQuery (queryHook fResp) text args w0))
      as (G1 & _ & G3 & G4 & G5 & _).
    repeat split; congruence.
  - rewrite (QueryContext_records beyond Catcher s args w Hst Hc Hf He Hr).
    fold text fResp w0. cbv zeta. cbn [snd].
    match goal with |- conns (called ?cb ?t ?a ?x) = _ /\ _ =>
      pose proof (called_frame cb t a x) as (G1 & _ & G3 & G4 & G5 & _) end.
    cbn [conns rngSource rngPos iterSeed emit with_iterPos] in G1, G3, G4, G5.
    repeat split; congruence.
Qed.

(** What an open statement holds after [QueryContext], and what the catalog
    was asked. *)
Lemma QueryContext_stored s st args w :
  stmts w !! s = Some st -> FakeStmt.closed st = false ->
  let text := substitute beyond (FakeStmt.q st) args in
  stmts (QueryContext beyond Catcher s args w).2
  = <[s := FakeStmt.with_q text st]> (stmts w) /\
  exists tail, log (QueryContext beyond Catcher s args w).2
               = log w ++ EvFindResponse text args :: tail.
Proof.
  intros Hst Hopen text.
  destruct (QueryContext_rewrites beyond Catcher s args w Hst Hopen) as [Hs Hl].
  fold text in Hs, Hl. split; [|exact Hl].
  rewrite Hs. unfold rewritten. destruct args as [|a args]; [|reflexivity].
  subst text. cbn [substitute]. symmetry. apply insert_id.
  rewrite Hst. destruct st; reflexivity.
Qed.

(** What the catalog is asked by [ExecContext] on an open statement. *)
Lemma ExecContext_asked s st args w :
  stmts w !! s = Some st -> FakeStmt.closed st = false ->
  exists tail, log (ExecContext Catcher s args w).2
               = log w ++ EvFindResponse (FakeStmt.q st) args :: tail.
Proof.
  intros Hst Hc.
  set (fResp := FindResponse Catcher (FakeStmt.q st) args).
  pose proof (log_answered AtExec (execHook fResp) (FakeStmt.q st) args w) as Hl.
  destruct (fires (execHook fResp) (env w)) eqn:Hf.
  { rewrite (ExecContext_badconn Catcher s args w Hst Hc Hf). eexists. exact Hl. }
  destruct (Error fResp) as [e|] eqn:He.
  { rewrite (ExecContext_error Catcher s args w Hst Hc Hf He). eexists. exact Hl. }
  destruct (ExecContext_past_callback Catcher s args w Hst Hc Hf He)
    as (tail & -> & _).
  rewrite log_called. fold fResp. rewrite Hl, <- !app_assoc. eexists. reflexivity.
Qed.

End Frames.

(** X4. Whatever the statement, the catalog and the arguments, closed or
    open, found or not: [ExecContext] changes no statement and no
    connection and iterates over no map, and [QueryContext] changes no
    connection and draws no random number. *)
Theorem X4_calls_leave_the_rest_alone {U : Type} (beyond : string -> Value -> string)
    (Catcher : MockCatcher U) (s : loc) (args : list NamedValue) (w : World U) :
  (stmts (ExecContext Catcher s args w).2 = stmts w /\
   conns (ExecContext Catcher s args w).2 = conns w /\
   iterPos (ExecContext Catcher s args w).2 = iterPos w) /\
  (conns (QueryContext beyond Catcher s args w).2 = conns w /\
   rngPos (QueryContext beyond Catcher s args w).2 = rngPos w).
Proof.
  destruct (ExecContext_frame Catcher s args w) as (E1 & E2 & _ & _ & E5).
  destruct (QueryContext_frame beyond Catcher s args w) as (Q1 & _ & Q3 & _).
  repeat split; assumption.
Qed.

(** X5. [QueryContext] on an open statement writes to that statement's SQL
    text and to nothing else of the heap: afterwards the statement holds
    the substituted text, with the same command, connection, next
    statement, closed flag and placeholder count ([NumInput] answers as
    before), and every other statement is as it was.  Without arguments
    the text is unchanged too. *)
Theorem X5_query_rewrites_only_the_text {U : Type}
    (beyond : string -> Value -> string) (Catcher : MockCatcher U) (s : loc)
    (st : FakeStmt.t) (args : list NamedValue) (w : World U) :
  stmts w !! s = Some st ->
  FakeStmt.closed st = false ->
  let r := QueryContext beyond Catcher s args w in
  stmts r.2 !! s
  = Some (FakeStmt.mk (FakeStmt.connection st)
                      (substitute beyond (FakeStmt.q st) args)
                      (FakeStmt.command st) (FakeStmt.next st) false
                      (FakeStmt.colName st) (FakeStmt.colType st)
                      (FakeStmt.placeholders st)) /\
  (forall l, l <> s -> stmts r.2 !! l = stmts w !! l) /\
  (NumInput s r.2).1 = (NumInput s w).1 /\
  (args = [] -> stmts r.2 = stmts w).
Proof.
  intros Hst Hopen. cbv zeta.
  destruct (QueryContext_stored beyond Catcher s args w Hst Hopen) as [Hs _].
  assert (Hs' : stmts (QueryContext beyond Catcher s args w).2 !! s
                = Some (FakeStmt.with_q (substitute beyond (FakeStmt.q st) args) st))
    by (rewrite Hs; apply lookup_insert_eq).
  split; [|split; [|split]].
  - rewrite Hs'. unfold FakeStmt.with_q. rewrite Hopen. reflexivity.
  - intros l Hl. rewrite Hs. apply lookup_insert_ne. congruence.
  - unfold NumInput, bind, loadStmt. rewrite Hs', Hst. reflexivity.
  - intros ->. rewrite Hs. cbn [substitute]. apply insert_id.
    rewrite Hst. destruct st; reflexivity.
Qed.

Lemma X5_query_rewrites_only_the_text_witness :
  let st := Fixture.stmt "SELECT" "SELECT * FROM users WHERE id = ?" in
  stmts (QueryContext Fixture.beyond [Fixture.users] 2%nat
           [Fixture.arg 1 (VInt64 7)] (Fixture.world st 0 O)).2 !! 2%nat
  = Some (Fixture.stmt "SELECT" "SELECT * FROM users WHERE id = 7").
Proof.
  intros st.
  destruct (X5_query_rewrites_only_the_text Fixture.beyond [Fixture.users] 2%nat
              (st := st) [Fixture.arg 1 (VInt64 7)] (Fixture.world st 0 O)
              eq_refl eq_refl) as (H & _).
  exact H.
Defined.

(** *** Argument substitution, call after call *)

Section MoreSubstitution.
Import GoStrings.

Lemma substitute_app beyond (args1 args2 : list NamedValue) : forall text,
  substitute beyond text (args1 ++ args2)
  = substitute beyond (substitute beyond text args1) args2.
Proof. induction args1 as [|a args1 IH]; intros text; [reflexivity | apply IH]. Qed.

Lemma free_of_app c (a b : string) :
  free_of c (a +:+ b) <-> free_of c a /\ free_of c b.
Proof. unfold free_of. rewrite count_app. lia. Qed.

Lemma ReplaceFirstPlaceholder_none text :
  free_of "?" text -> ReplaceFirstPlaceholder text = text.
Proof.
  induction text as [|c rest IH]; simpl; [reflexivity|].
  intros [Hc Hrest]%free_of_cons. rewrite Hc, IH by exact Hrest. reflexivity.
Qed.

(** A format without [%] leaves the operand unused: [fmt] appends its note
    about the extra operand. *)
Lemma doPrintf_no_verb text v :
  free_of "%" text -> Fmt.doPrintf text (Some v) = Some (text +:+ Fmt.extra v).
Proof.
  induction text as [|c rest IH]; simpl; [reflexivity|].
  intros [Hc Hrest]%free_of_cons. rewrite Hc, IH by exact Hrest. reflexivity.
Qed.

Lemma placeholdersFilled_first pre rest v :
  free_of "?" pre ->
  placeholdersFilled (pre +:+ String "?" rest) [v] = pre +:+ v +:+ rest.
Proof.
  intros Hpre. rewrite placeholdersFilled_app by exact Hpre. simpl.
  rewrite placeholdersFilled_nil. reflexivity.
Qed.

Lemma append_assoc (a b c : string) : (a +:+ b) +:+ c = a +:+ b +:+ c.
Proof.
  induction a as [|x a IH]; [reflexivity|].
  change (String x ((a +:+ b) +:+ c) = String x (a +:+ b +:+ c)).
  f_equal. exact IH.
Qed.

End MoreSubstitution.

(** X6. A statement is not reset between queries: a second [QueryContext]
    on the same open statement substitutes into the text the first one
    left.  The catalog is then asked about the text obtained from the
    original one with the arguments of both calls, one after the other,
    and that text is what the statement holds afterwards. *)
Theorem X6_queries_accumulate {U : Type} (beyond : string -> Value -> string)
    (Catcher1 Catcher2 : MockCatcher U) (s : loc) (st : FakeStmt.t)
    (args1 args2 : list NamedValue) (w : World U) :
  stmts w !! s = Some st ->
  FakeStmt.closed st = false ->
  let r1 := QueryContext beyond Catcher1 s args1 w in
  let r2 := QueryContext beyond Catcher2 s args2 r1.2 in
  let text := substitute beyond (FakeStmt.q st) (args1 ++ args2) in
  FakeStmt.q <$> stmts r2.2 !! s = Some text /\
  exists tail, log r2.2 = log r1.2 ++ EvFindResponse text args2 :: tail.
Proof.
  intros Hst Hopen. cbv zeta.
  destruct (QueryContext_stored beyond Catcher1 s args1 w Hst Hopen) as [Hs1 _].
  set (text1 := substitute beyond (FakeStmt.q st) args1) in *.
  assert (Hst1 : stmts (QueryContext beyond Catcher1 s args1 w).2 !! s
                 = Some (FakeStmt.with_q text1 st))
    by (rewrite Hs1; apply lookup_insert_eq).
  destruct (QueryContext_stored beyond Catcher2 s args2 _ Hst1 Hopen) as [Hs2 Hl2].
  cbn [FakeStmt.q FakeStmt.with_q] in Hs2, Hl2.
  rewrite substitute_app. fold text1. split; [|exact Hl2].
  rewrite Hs2, lookup_insert_eq. reflexivity.
Qed.

Lemma X6_queries_accumulate_witness :
  let st := Fixture.stmt "SELECT" "SELECT * FROM t WHERE a = ? AND b = ?" in
  let r1 := QueryContext Fixture.beyond [Fixture.users] 2%nat
              [Fixture.arg 1 (VInt64 1)] (Fixture.world st 0 O) in
  let r2 := QueryContext Fixture.beyond [Fixture.users] 2%nat
              [Fixture.arg 1 (VInt64 2)] r1.2 in
  FakeStmt.q <$> stmts r2.2 !! 2%nat = Some "SELECT * FROM t WHERE a = 1 AND b = 2".
Proof.
  intros st r1 r2.
  destruct (X6_queries_accumulate Fixture.beyond [Fixture.users] [Fixture.users]
              2%nat (st := st) [Fixture.arg 1 (VInt64 1)] [Fixture.arg 1 (VInt64 2)]
              (Fixture.world st 0 O) eq_refl eq_refl) as [H _].
  exact H.
Defined.

(** X7. On benign input the loop of [QueryContext] substitutes as
    intended: when the stored text holds no [%] and at least as many [?] as
    there are arguments, and no argument's rendering holds [?] or [%], the
    catalog is asked about the text with its first placeholders replaced,
    in order, by the renderings of the arguments, and the statement holds
    that text afterwards. *)
Theorem X7_query_fills_placeholders {U : Type} (beyond : string -> Value -> string)
    (Catcher : MockCatcher U) (s : loc) (st : FakeStmt.t)
    (args : list NamedValue) (w : World U) :
  stmts w !! s = Some st ->
  FakeStmt.closed st = false ->
  GoStrings.free_of "%" (FakeStmt.q st) ->
  Forall (fun a => GoStrings.free_of "?" (Fmt.render (NValue a)) /\
                   GoStrings.free_of "%" (Fmt.render (NValue a))) args ->
  (length args <= GoStrings.count "?" (FakeStmt.q st))%nat ->
  let r := QueryContext beyond Catcher s args w in
  let text := placeholdersFilled (FakeStmt.q st)
                ((fun a => Fmt.render (NValue a)) <$> args) in
  FakeStmt.q <$> stmts r.2 !! s = Some text /\
  exists tail, log r.2 = log w ++ EvFindResponse text args :: tail.
Proof.
  intros Hst Hopen Hp Hargs Hn. cbv zeta.
  destruct (QueryContext_stored beyond Catcher s args w Hst Hopen) as [Hs Hl].
  rewrite (substitute_fills_placeholders beyond Hp Hargs Hn) in Hs, Hl.
  split; [|exact Hl]. rewrite Hs, lookup_insert_eq. reflexivity.
Qed.

Lemma X7_query_fills_placeholders_witness :
  let st := Fixture.stmt "SELECT" "SELECT * FROM t WHERE a = ? AND b = ?" in
  FakeStmt.q <$>
    stmts (QueryContext Fixture.beyond [Fixture.users] 2%nat
             [Fixture.arg 1 (VInt64 (-5)); Fixture.arg 2 (VString "y")]
             (Fixture.world st 0 O)).2 !! 2%nat
  = Some "SELECT * FROM t WHERE a = -5 AND b = y".
Proof.
  intros st.
  assert (Hargs : Forall (fun a => GoStrings.free_of "?" (Fmt.render (NValue a)) /\
                                   GoStrings.free_of "%" (Fmt.render (NValue a)))
                         [Fixture.arg 1 (VInt64 (-5)); Fixture.arg 2 (VString "y")]).
  { repeat constructor. }
  destruct (X7_query_fills_placeholders Fixture.beyond [Fixture.users] 2%nat
              (st := st) (Fixture.world st 0 O) eq_refl eq_refl eq_refl Hargs
              (le_n 2)) as [H _].
  exact H.
Defined.

(** X8. An argument without a placeholder to take it is not dropped: when
    the stored text holds neither [?] nor [%] (a statement written with
    [$1]-style parameters, say), [QueryContext] with one argument asks the
    catalog about the text followed by [fmt]'s note on the extra operand,
    [%!(EXTRA type=value)], and leaves that in the statement. *)
Theorem X8_query_appends_unplaced_argument {U : Type}
    (beyond : string -> Value -> string) (Catcher : MockCatcher U) (s : loc)
    (st : FakeStmt.t) (a : NamedValue) (w : World U) :
  stmts w !! s = Some st ->
  FakeStmt.closed st = false ->
  GoStrings.free_of "?" (FakeStmt.q st) ->
  GoStrings.free_of "%" (FakeStmt.q st) ->
  let r := QueryContext beyond Catcher s [a] w in
  let text := FakeStmt.q st +:+ Fmt.extra (NValue a) in
  FakeStmt.q <$> stmts r.2 !! s = Some text /\
  exists tail, log r.2 = log w ++ EvFindResponse text [a] :: tail.
Proof.
  intros Hst Hopen Hq Hp. cbv zeta.
  destruct (QueryContext_stored beyond Catcher s [a] w Hst Hopen) as [Hs Hl].
  assert (Ht : substitute beyond (FakeStmt.q st) [a]
               = FakeStmt.q st +:+ Fmt.extra (NValue a)).
  { cbn [substitute]. unfold Fmt.Sprintf.
    rewrite (ReplaceFirstPlaceholder_none Hq), (doPrintf_no_verb _ Hp). reflexivity. }
  rewrite Ht in Hs, Hl. split; [|exact Hl].
  rewrite Hs, lookup_insert_eq. reflexivity.
Qed.

Lemma X8_query_appends_unplaced_argument_witness :
  let st := Fixture.stmt "SELECT" "SELECT * FROM t WHERE a = $1" in
  FakeStmt.q <$>
    stmts (QueryContext Fixture.beyond [Fixture.users] 2%nat
             [Fixture.arg 1 (VInt64 5)] (Fixture.world st 0 O)).2 !! 2%nat
  = Some "SELECT * FROM t WHERE a = $1%!(EXTRA int64=5)".
Proof.
  intros st.
  destruct (X8_query_appends_unplaced_argument Fixture.beyond [Fixture.users] 2%nat
              (st := st) (Fixture.arg 1 (VInt64 5)) (Fixture.world st 0 O)
              eq_refl eq_refl eq_refl eq_refl) as [H _].
  exact H.
Defined.

(** X9. A question mark inside an argument is taken for a placeholder: when
    the text is [pre ? post] and the first argument renders as [x ? y]
    (with no [?] in [pre] and [x], and no [%] anywhere), the second
    argument's rendering replaces the question mark of the first
    argument, not a placeholder of the statement: the catalog is asked
    about [pre x v2 y post]. *)
Theorem X9_question_mark_in_argument {U : Type}
    (beyond : string -> Value -> string) (Catcher : MockCatcher U) (s : loc)
    (st : FakeStmt.t) (a1 a2 : NamedValue) (pre post x y : string) (w : World U) :
  stmts w !! s = Some st ->
  FakeStmt.closed st = false ->
  FakeStmt.q st = pre +:+ String "?" post ->
  Fmt.render (NValue a1) = x +:+ String "?" y ->
  GoStrings.free_of "?" pre -> GoStrings.free_of "?" x ->
  GoStrings.free_of "%" pre -> GoStrings.free_of "%" post ->
  GoStrings.free_of "%" x -> GoStrings.free_of "%" y ->
  let r := QueryContext beyond Catcher s [a1; a2] w in
  let text := pre +:+ x +:+ Fmt.render (NValue a2) +:+ y +:+ post in
  FakeStmt.q <$> stmts r.2 !! s = Some text /\
  exists tail, log r.2 = log w ++ EvFindResponse text [a1; a2] :: tail.
Proof.
  intros Hst Hopen Hq Hr Hpre Hx Hppre Hppost Hpx Hpy. cbv zeta.
  destruct (QueryContext_stored beyond Catcher s [a1; a2] w Hst Hopen) as [Hs Hl].
  assert (Ht : substitute beyond (FakeStmt.q st) [a1; a2]
               = pre +:+ x +:+ Fmt.render (NValue a2) +:+ y +:+ post).
  { cbn [substitute]. rewrite Hq.
    assert (H1 : Fmt.Sprintf beyond
                   (GoStrings.ReplaceFirstPlaceholder (pre +:+ String "?" post))
                   (NValue a1)
                 = (pre +:+ x) +:+ String "?" (y +:+ post)).
    { rewrite Sprintf_first_placeholder.
      - rewrite (placeholdersFilled_first post _ Hpre), Hr.
        rewrite (append_assoc x (String "?" y) post).
        change (String "?" y +:+ post) with (String "?" (y +:+ post)).
        symmetry. apply append_assoc.
      - apply free_of_app. split; [exact Hppre|].
        apply free_of_cons. split; [reflexivity | exact Hppost].
      - rewrite count_app. simpl. lia. }
    rewrite H1. rewrite Sprintf_first_placeholder.
    - rewrite placeholdersFilled_first by (apply free_of_app; split; assumption).
      apply append_assoc.
    - apply free_of_app. split.
      + apply free_of_app. split; assumption.
      + apply free_of_cons. split; [reflexivity|].
        apply free_of_app. split; assumption.
    - rewrite count_app. simpl. lia. }
  rewrite Ht in Hs, Hl. split; [|exact Hl].
  rewrite Hs, lookup_insert_eq. reflexivity.
Qed.

Lemma X9_question_mark_in_argument_witness :
  let st := Fixture.stmt "SELECT" "a = ? AND b = ?" in
  FakeStmt.q <$>
    stmts (QueryContext Fixture.beyond [Fixture.users] 2%nat
             [Fixture.arg 1 (VString "x?"); Fixture.arg 2 (VString "y")]
             (Fixture.world st 0 O)).2 !! 2%nat
  = Some "a = xy AND b = ?".
Proof.
  intros st.
  destruct (X9_question_mark_in_argument Fixture.beyond [Fixture.users] 2%nat
              (st := st) (Fixture.arg 1 (VString "x?")) (Fixture.arg 2 (VString "y"))
              (pre := "a = ") (post := " AND b = ?") (x := "x") (y := "")
              (Fixture.world st 0 O)
              eq_refl eq_refl eq_refl eq_refl eq_refl eq_refl eq_refl eq_refl
              eq_refl eq_refl) as [H _].
  exact H.
Defined.

(** X10. [ExecContext] substitutes nothing: on an open statement, whatever
    the arguments, the catalog is asked about the stored text as it is,
    placeholders included, and when the callback runs it is handed that
    same text and the arguments. *)
Theorem X10_exec_asks_about_stored_text {U : Type} (Catcher : MockCatcher U)
    (s : loc) (st : FakeStmt.t) (args : list NamedValue) (w : World U) :
  stmts w !! s = Some st ->
  FakeStmt.closed st = false ->
  let r := ExecContext Catcher s args w in
  (exists tail, log r.2 = log w ++ EvFindResponse (FakeStmt.q st) args :: tail) /\
  lookups (log r.2) = S (lookups (log w)) /\
  (forall text args', In (EvCallback text args') (log r.2) ->
                      ~ In (EvCallback text args') (log w) ->
                      text = FakeStmt.q st /\ args' = args).
Proof.
  intros Hst Hc. cbv zeta.
  split; [exact (ExecContext_asked Catcher s args w Hst Hc)|].
  set (fResp := FindResponse Catcher (FakeStmt.q st) args).
  pose proof (log_answered AtExec (execHook fResp) (FakeStmt.q st) args w) as Hl.
  assert (Hhook : forall t a,
             ~ In (EvCallback t a)
                  (match execHook fResp with
                   | Some f => [EvHook AtExec (f (env w)).1]
                   | None => []
                   end)).
  { intros t a. destruct (execHook fResp); simpl; intuition discriminate. }
  assert (Hlk : lookups (log (answered AtExec (execHook fResp) (FakeStmt.q st) args w))
                = S (lookups (log w))).
  { rewrite Hl, lookups_app. destruct (execHook fResp); cbn; lia. }
  destruct (fires (execHook fResp) (env w)) eqn:Hf.
  { rewrite (ExecContext_badconn Catcher s args w Hst Hc Hf). cbn [snd]. fold fResp.
    split; [exact Hlk|]. intros t a Hin Hnot. exfalso. rewrite Hl in Hin.
    apply in_app_or in Hin as [Hin|[Hin|Hin]];
      [exact (Hnot Hin) | discriminate | exact (Hhook _ _ Hin)]. }
  destruct (Error fResp) as [e|] eqn:He.
  { rewrite (ExecContext_error Catcher s args w Hst Hc Hf He). cbn [snd]. fold fResp.
    split; [exact Hlk|]. intros t a Hin Hnot. exfalso. rewrite Hl in Hin.
    apply in_app_or in Hin as [Hin|[Hin|Hin]];
      [exact (Hnot Hin) | discriminate | exact (Hhook _ _ Hin)]. }
  destruct (ExecContext_past_callback Catcher s args w Hst Hc Hf He)
    as (tail & Hlog & Htail & Hlt & _).
  fold fResp in Hlog. rewrite Hlog. split.
  - rewrite lookups_app, Hlt, log_called, lookups_app, Hlk.
    destruct (Callback fResp); cbn; lia.
  - intros t a Hin Hnot.
    apply in_app_or in Hin as [Hin|Hin].
    + rewrite log_called, Hl in Hin.
      apply in_app_or in Hin as [Hin|Hin].
      * exfalso. apply in_app_or in Hin as [Hin|[Hin|Hin]];
          [exact (Hnot Hin) | discriminate | exact (Hhook _ _ Hin)].
      * destruct (Callback fResp); [|destruct Hin].
        destruct Hin as [[= <- <-]|[]]. split; reflexivity.
    + exfalso. clear -Hin Htail. unfold callbacks in Htail.
      induction tail as [|e tail IH]; [destruct Hin|].
      cbn in Htail. destruct Hin as [->|Hin]; [discriminate|].
      destruct (is_callback e); [discriminate | exact (IH Htail Hin)].
Qed.

Lemma X10_exec_asks_about_stored_text_witness :
  let st := Fixture.stmt "UPDATE" "UPDATE users SET name=?" in
  log (ExecContext [Fixture.updated] 2%nat [Fixture.arg 1 (VString "x")]
         (Fixture.world st 0 O)).2
  = [EvFindResponse "UPDATE users SET name=?" [Fixture.arg 1 (VString "x")];
     EvCallback "UPDATE users SET name=?" [Fixture.arg 1 (VString "x")]] /\
  lookups (log (ExecContext [Fixture.updated] 2%nat [Fixture.arg 1 (VString "x")]
                  (Fixture.world st 0 O)).2) = 1%nat.
Proof.
  intros st.
  destruct (X10_exec_asks_about_stored_text [Fixture.updated] 2%nat (st := st)
              [Fixture.arg 1 (VString "x")] (Fixture.world st 0 O)
              eq_refl eq_refl) as (_ & H & _).
  split; [reflexivity | exact H].
Defined.

(** *** Transactions and statements together *)

Section MoreTransactions.
Context {U : Type}.
Implicit Types (w : World U).

(** A chain stays a chain in a world with the same statements whose
    connections kept their [db]. *)
Lemma chain_transfer w w' s ls :
  chain w s ls ->
  stmts w' = stmts w ->
  (forall c cn, conns w !! c = Some cn ->
                exists cn', conns w' !! c = Some cn' /\ FakeConn.db cn' = FakeConn.db cn) ->
  chain w' s ls.
Proof.
  intros Hch Hs Hc.
  induction Hch as [l st c cn d Hl Hcon Hcn Hd Hn
                   |l st c cn d n ls Hl Hcon Hcn Hd Hn _ IH].
  - destruct (Hc c cn Hcn) as (cn' & Hcn' & Hd').
    eapply chain_last with (st := st) (cn := cn') (c := c) (d := d);
      [rewrite Hs; exact Hl | exact Hcon | exact Hcn' | congruence | exact Hn].
  - destruct (Hc c cn Hcn) as (cn' & Hcn' & Hd').
    eapply chain_next with (st := st) (cn := cn') (c := c) (d := d) (n := n);
      [rewrite Hs; exact Hl | exact Hcon | exact Hcn' | congruence | exact Hn
      | exact IH].
Qed.

Lemma chain_after_clearing name (hook : option (Hook U)) c cn w s ls :
  conns w !! c = Some cn ->
  chain w s ls ->
  chain (hooked name hook (cleared c cn w)) s ls.
Proof.
  intros Hcn Hch.
  destruct (hooked_frame name hook (cleared c cn w)) as (Hc & Hs & _).
  apply chain_transfer with (w := w); [exact Hch | |].
  - rewrite Hs. reflexivity.
  - intros c0 cn0 Hc0. rewrite Hc. unfold cleared. cbn [conns emit with_conns].
    destruct (decide (c = c0)) as [->|Hne].
    + rewrite lookup_insert_eq. rewrite Hcn in Hc0. injection Hc0 as <-. eauto.
    + rewrite lookup_insert_ne by exact Hne. eauto.
Qed.

End MoreTransactions.

(** X11. Ending a transaction does not get in the way of closing: after
    [Commit] or [Rollback] on a live connection, whatever their hooks
    answer, [Close] on a statement whose chain was sound still returns
    [nil]. *)
Theorem X11_close_after_transaction_end {U : Type}
    (commitHook rollbackHook : option (Hook U)) (tx : FakeTx.t) (c : loc)
    (cn : FakeConn.t) (s : loc) (ls : list loc) (fuel : nat) (w : World U) :
  FakeTx.c tx = Some c ->
  conns w !! c = Some cn ->
  chain w s ls ->
  (length ls <= fuel)%nat ->
  (Close fuel s (Commit commitHook tx w).2).1 = Returns None /\
  (Close fuel s (Rollback rollbackHook tx w).2).1 = Returns None.
Proof.
  intros Hc Hcn Hch Hf. split.
  - rewrite (Commit_run commitHook tx w Hc Hcn). cbn [snd].
    rewrite (Close_chain (@chain_after_clearing U AtCommit commitHook c cn w s ls Hcn Hch) Hf).
    reflexivity.
  - rewrite (Rollback_run rollbackHook tx w Hc Hcn). cbn [snd].
    rewrite (Close_chain (@chain_after_clearing U AtRollback rollbackHook c cn w s ls Hcn Hch)
               Hf).
    reflexivity.
Qed.

Lemma X11_close_after_transaction_end_witness :
  (Close 2 2%nat (Commit (Some Fixture.hookTrue) Fixture.tx Fixture.goodChain).2).1
  = Returns None /\
  (Close 2 2%nat (Rollback (U := nat) None Fixture.tx Fixture.goodChain).2).1
  = Returns None.
Proof.
  assert (Hch : chain Fixture.goodChain 2%nat [2%nat; 3%nat]).
  { eapply chain_next with (c := 1%nat) (n := 3%nat); try reflexivity.
    eapply chain_last with (c := 1%nat); reflexivity. }
  exact (@X11_close_after_transaction_end nat (Some Fixture.hookTrue) None
           Fixture.tx 1%nat Fixture.conn 2%nat [2%nat; 3%nat] 2 Fixture.goodChain
           eq_refl eq_refl Hch (le_n 2)).
Defined.

(** X12. Neither [Commit] nor [Rollback] looks at the reference it clears:
    a transaction that has been committed can be rolled back (or committed
    again) without complaint.  The second call returns what its hook alone
    decides, consults that hook once more, and leaves the connections as
    the first call left them. *)
Theorem X12_transaction_ends_twice {U : Type}
    (commitHook rollbackHook : option (Hook U)) (tx : FakeTx.t) (c : loc)
    (cn : FakeConn.t) (w : World U) :
  FakeTx.c tx = Some c ->
  conns w !! c = Some cn ->
  let r1 := Commit commitHook tx w in
  let r2 := Rollback rollbackHook tx r1.2 in
  r2.1 = Returns (if fires rollbackHook (env r1.2) then Some ErrBadConn else None) /\
  conns r2.2 = conns r1.2 /\
  conns r2.2 !! c = Some (FakeConn.mk (FakeConn.db cn) None) /\
  log r2.2 = log r1.2 ++ EvClearCurrTx c ::
                         match rollbackHook with
                         | Some h => [EvHook AtRollback (h (env r1.2)).1]
                         | None => []
                         end.
Proof.
  intros Hc Hcn. cbv zeta.
  rewrite (Commit_run commitHook tx w Hc Hcn). cbn [fst snd].
  set (w1 := hooked AtCommit commitHook (cleared c cn w)).
  assert (Hc1 : conns w1 = <[c := FakeConn.mk (FakeConn.db cn) None]> (conns w)).
  { destruct (hooked_frame AtCommit commitHook (cleared c cn w)) as (H & _).
    exact H. }
  assert (Hcn1 : conns w1 !! c = Some (FakeConn.mk (FakeConn.db cn) None))
    by (rewrite Hc1; apply lookup_insert_eq).
  rewrite (Rollback_run rollbackHook tx w1 Hc Hcn1). cbn [fst snd].
  destruct (hooked_frame AtRollback rollbackHook
              (cleared c (FakeConn.mk (FakeConn.db cn) None) w1)) as (-> & _).
  rewrite log_hooked. unfold cleared at 1 2 3.
  cbn [conns log env emit with_conns FakeConn.db].
  rewrite <- app_assoc. cbn [app].
  split; [reflexivity|]. split; [|split; [|reflexivity]].
  - apply insert_id. exact Hcn1.
  - rewrite lookup_insert_eq. reflexivity.
Qed.

Lemma X12_transaction_ends_twice_witness :
  let r1 := Commit (Some Fixture.hookTrue) Fixture.tx Fixture.goodChain in
  let r2 := Rollback (Some Fixture.hookFalse) Fixture.tx r1.2 in
  r1.1 = Returns (Some ErrBadConn) /\
  r2.1 = Returns None /\
  log r2.2 = [EvClearCurrTx 1%nat; EvHook AtCommit true;
              EvClearCurrTx 1%nat; EvHook AtRollback false].
Proof.
  intros r1 r2.
  destruct (X12_transaction_ends_twice (Some Fixture.hookTrue)
              (Some Fixture.hookFalse) Fixture.tx (c := 1%nat) (cn := Fixture.conn)
              Fixture.goodChain eq_refl eq_refl) as (H1 & _ & _ & H4).
  split; [reflexivity | split; [exact H1 | exact H4]].
Defined.

(** *** Random ids and rows *)

(** X13. [ExecContext] draws from the random source in one situation
    only, and then exactly once: the statement is open, the exec hook does
    not fire, the response carries no error, the command is INSERT and the
    registered [LastInsertID] is zero.  In every other case, UPDATE,
    DELETE and MERGE included, the random source is left where it was. *)
Theorem X13_exec_draws_only_for_unset_insert_id {U : Type}
    (Catcher : MockCatcher U) (s : loc) (st : FakeStmt.t)
    (args : list NamedValue) (w : World U) :
  stmts w !! s = Some st ->
  let fResp := FindResponse Catcher (FakeStmt.q st) args in
  rngPos (ExecContext Catcher s args w).2
  = if negb (FakeStmt.closed st)
       && negb (fires (execHook fResp) (env w))
       && match Error fResp with None => true | Some _ => false end
       && String.eqb (FakeStmt.command st) "INSERT"
       && Z.eqb (LastInsertID fResp) 0
    then S (rngPos w)
    else rngPos w.
Proof.
  intros Hst fResp.
  destruct (FakeStmt.closed st) eqn:Hc.
  { rewrite (ExecContext_closed Catcher s args w Hst Hc). reflexivity. }
  pose proof (answered_frame AtExec (execHook fResp) (FakeStmt.q st) args w)
    as (_ & _ & _ & F4 & _).
  destruct (fires (execHook fResp) (env w)) eqn:Hf.
  { rewrite (ExecContext_badconn Catcher s args w Hst Hc Hf). exact F4. }
  destruct (Error fResp) as [e|] eqn:He.
  { rewrite (ExecContext_error Catcher s args w Hst Hc Hf He). exact F4. }
  rewrite (ExecContext_dispatch Catcher s args w Hst Hc Hf He). fold fResp. cbv zeta.
  pose proof (called_frame (Callback fResp) (FakeStmt.q st) args
                (answered AtExec (execHook fResp) (FakeStmt.q st) args w))
    as (_ & _ & _ & G4 & _).
  cbn [negb andb].
  destruct (String.eqb (FakeStmt.command st) "INSERT");
    [destruct (Z.eqb (LastInsertID fResp) 0)
    |destruct (String.eqb (FakeStmt.command st) "UPDATE"
               || String.eqb (FakeStmt.command st) "DELETE"
               || String.eqb (FakeStmt.command st) "MERGE")];
    cbn [snd rngPos emit with_rngPos andb]; congruence.
Qed.

Lemma X13_exec_draws_only_for_unset_insert_id_witness :
  let stI := Fixture.stmt "INSERT" "INSERT INTO users" in
  rngPos (ExecContext [Fixture.inserted 0] 2%nat [] (Fixture.world stI 5 O)).2 = 1%nat /\
  rngPos (ExecContext [Fixture.inserted 42] 2%nat [] (Fixture.world stI 5 O)).2 = O.
Proof.
  intros stI. split.
  - exact (X13_exec_draws_only_for_unset_insert_id [Fixture.inserted 0] 2%nat
             (st := stI) [] (Fixture.world stI 5 O) eq_refl).
  - exact (X13_exec_draws_only_for_unset_insert_id [Fixture.inserted 42] 2%nat
             (st := stI) [] (Fixture.world stI 5 O) eq_refl).
Defined.

Section MoreRows.

Lemma cells_agree (first r r' : gmap string Value) (keys : list string) :
  (forall c, c ∈ keys -> is_Some (first !! c)) ->
  (forall c, is_Some (first !! c) -> r !! c = r' !! c) ->
  cell r <$> keys = cell r' <$> keys.
Proof.
  intros Hk Hag. induction keys as [|k keys IH]; [reflexivity|].
  cbn [fmap list_fmap]. f_equal.
  - unfold cell. rewrite (Hag k); [reflexivity|]. apply Hk. left.
  - apply IH. intros c Hc. apply Hk. by right.
Qed.

Lemma rangeKeys_empty seed : rangeKeys seed ∅ = [].
Proof. unfold rangeKeys. rewrite map_to_list_empty. reflexivity. Qed.

End MoreRows.

(** X14. The columns are those of the first record, so whatever a later
    record holds under a key the first record lacks is dropped: two
    responses with the same first record, whose further records agree on
    the first record's keys, give the same cursor on the same call. *)
Theorem X14_keys_outside_first_record_are_dropped {U : Type}
    (beyond : string -> Value -> string) (Catcher Catcher' : MockCatcher U)
    (s : loc) (st : FakeStmt.t) (args : list NamedValue) (w : World U)
    (first : gmap string Value) (rest rest' : list (gmap string Value)) :
  stmts w !! s = Some st ->
  FakeStmt.closed st = false ->
  let text := substitute beyond (FakeStmt.q st) args in
  let fResp := FindResponse Catcher text args in
  let fResp' := FindResponse Catcher' text args in
  fires (queryHook fResp) (env w) = false ->
  fires (queryHook fResp') (env w) = false ->
  Error fResp = None -> Error fResp' = None ->
  Response fResp = first :: rest ->
  Response fResp' = first :: rest' ->
  Forall2 (fun r r' => forall c, is_Some (first !! c) -> r !! c = r' !! c) rest rest' ->
  (QueryContext beyond Catcher s args w).1 = (QueryContext beyond Catcher' s args w).1.
Proof.
  intros Hst Hopen text fResp fResp' Hf Hf' He He' Hr Hr' Hag.
  rewrite (QueryContext_records beyond Catcher s args w Hst Hopen Hf He Hr).
  rewrite (QueryContext_records beyond Catcher' s args w Hst Hopen Hf' He' Hr').
  cbv zeta. cbn [fst].
  set (keys := rangeKeys (iterSeed w (iterPos w)) first).
  assert (Hnd : NoDup keys) by apply rangeKeys_NoDup.
  rewrite !buildRows_map.
  assert (Hrows : buildRow (collectColumns keys).1 (collectColumns keys).2 <$> rest
                  = buildRow (collectColumns keys).1 (collectColumns keys).2 <$> rest').
  { clear Hr Hr'. induction Hag as [|r r' rs rs' Hrr _ IH]; [reflexivity|].
    cbn [fmap list_fmap]. f_equal; [|exact IH].
    rewrite !buildRow_cells by exact Hnd. f_equal.
    apply cells_agree with (first := first); [|exact Hrr].
    intros c Hc. apply rangeKeys_elem in Hc. exact Hc. }
  cbn [fmap list_fmap]. rewrite Hrows. reflexivity.
Qed.

Lemma X14_keys_outside_first_record_are_dropped_witness :
  let stS := Fixture.stmt "SELECT" "SELECT * FROM users" in
  let wider : FakeResponse nat :=
    mkFakeResponse (Fixture.exact "SELECT * FROM users")
      [Fixture.user 1 "a"; <["age" := VInt64 30]> (<["id" := VInt64 2]> ∅)]
      None None 0 0 None in
  (QueryContext Fixture.beyond [Fixture.ragged] 2%nat [] (Fixture.world stS 0 O)).1
  = (QueryContext Fixture.beyond [wider] 2%nat [] (Fixture.world stS 0 O)).1.
Proof.
  intros stS wider.
  apply (X14_keys_outside_first_record_are_dropped Fixture.beyond
           [Fixture.ragged] [wider] 2%nat (st := stS) []
           (Fixture.world stS 0 O) (first := Fixture.user 1 "a")
           (rest := [<["id" := VInt64 2]> ∅])
           (rest' := [<["age" := VInt64 30]> (<["id" := VInt64 2]> ∅)])
           eq_refl eq_refl eq_refl eq_refl eq_refl eq_refl eq_refl eq_refl).
  constructor; [|constructor].
  intros c [v Hv].
  destruct (decide (c = "age")) as [->|Hne]; [vm_compute in Hv; discriminate|].
  rewrite (lookup_insert_ne _ "age" c) by congruence. reflexivity.
Defined.

(** X15. A first record without keys empties the whole result: the cursor
    has no column, and it holds one row for every registered record, the
    later ones included, each without a cell. *)
Theorem X15_empty_first_record {U : Type} (beyond : string -> Value -> string)
    (Catcher : MockCatcher U) (s : loc) (st : FakeStmt.t)
    (args : list NamedValue) (w : World U) (rest : list (gmap string Value)) :
  stmts w !! s = Some st ->
  FakeStmt.closed st = false ->
  let fResp := FindResponse Catcher (substitute beyond (FakeStmt.q st) args) args in
  fires (queryHook fResp) (env w) = false ->
  Error fResp = None ->
  Response fResp = ∅ :: rest ->
  (QueryContext beyond Catcher s args w).1
  = Returns (Some (newCursor [replicate (S (length rest)) (row.mk [])] []), None).
Proof.
  intros Hst Hopen fResp Hf He Hr.
  rewrite (QueryContext_records beyond Catcher s args w Hst Hopen Hf He Hr).
  cbv zeta. cbn [fst]. rewrite rangeKeys_empty. cbn [collectColumns foldl fst snd].
  rewrite buildRows_map.
  assert (Hrows : forall records : list (gmap string Value),
             buildRow ∅ [] <$> records = replicate (length records) (row.mk [])).
  { induction records as [|r records IH]; [reflexivity|].
    cbn [fmap list_fmap replicate length]. f_equal. exact IH. }
  rewrite Hrows. reflexivity.
Qed.

Lemma X15_empty_first_record_witness :
  let stS := Fixture.stmt "SELECT" "SELECT * FROM users" in
  let hollow : FakeResponse nat :=
    mkFakeResponse (Fixture.exact "SELECT * FROM users")
      [∅; Fixture.user 2 "b"] None None 0 0 None in
  (QueryContext Fixture.beyond [hollow] 2%nat [] (Fixture.world stS 0 O)).1
  = Returns (Some (newCursor [[row.mk []; row.mk []]] []), None).
Proof.
  intros stS hollow.
  exact (X15_empty_first_record Fixture.beyond [hollow] 2%nat (st := stS) []
           (Fixture.world stS 0 O) (rest := [Fixture.user 2 "b"])
           eq_refl eq_refl eq_refl eq_refl eq_refl).
Defined.

(** *** What every answer looks like *)

(** X16. Whatever the input, a cursor that [QueryContext] returns is
    fresh and rectangular: it stands before the first row ([posRow] and
    [errPos] are [-1]), it is not closed, it holds exactly one result set
    and no column types, its columns are pairwise distinct, and every row
    has exactly one cell per column. *)
Theorem X16_returned_cursor_is_fresh_and_rectangular {U : Type}
    (beyond : string -> Value -> string) (Catcher : MockCatcher U) (s : loc)
    (args : list NamedValue) (w : World U) (cursor : RowsCursor.t)
    (err : option error) :
  (QueryContext beyond Catcher s args w).1 = Returns (Some cursor, err) ->
  err = None /\
  RowsCursor.posRow cursor = -1 /\ RowsCursor.errPos cursor = -1 /\
  RowsCursor.closed cursor = false /\ RowsCursor.colType cursor = [] /\
  NoDup (RowsCursor.cols cursor) /\
  exists rows,
    RowsCursor.rows cursor = [rows] /\
    Forall (fun r => length (row.cols r) = length (RowsCursor.cols cursor)) rows.
Proof.
  destruct (stmts w !! s) as [st|] eqn:Hst.
  2:{ unfold QueryContext, bind, loadStmt. rewrite Hst. discriminate. }
  destruct (FakeStmt.closed st) eqn:Hc.
  { rewrite (QueryContext_closed beyond Catcher s args w Hst Hc). discriminate. }
  set (fResp := FindResponse Catcher (substitute beyond (FakeStmt.q st) args) args).
  destruct (fires (queryHook fResp) (env w)) eqn:Hf.
  { rewrite (QueryContext_badconn beyond Catcher s args w Hst Hc Hf). discriminate. }
  destruct (Error fResp) as [e|] eqn:He.
  { rewrite (QueryContext_error beyond Catcher s args w Hst Hc Hf He). discriminate. }
  destruct (Response fResp) as [|first rest] eqn:Hr.
  - rewrite (QueryContext_no_records beyond Catcher s args w Hst Hc Hf He Hr).
    intros [= <- <-]. repeat split; [constructor|].
    exists []. split; [reflexivity | constructor].
  - rewrite (QueryContext_records beyond Catcher s args w Hst Hc Hf He Hr).
    cbv zeta. intros [= <- <-].
    set (keys := rangeKeys (iterSeed w (iterPos w)) first).
    assert (Hnd : NoDup keys) by apply rangeKeys_NoDup.
    cbn [newCursor RowsCursor.posRow RowsCursor.errPos RowsCursor.closed
         RowsCursor.colType RowsCursor.cols RowsCursor.rows].
    rewrite collectColumns_names.
    repeat split; [exact Hnd|].
    eexists. split; [reflexivity|].
    rewrite buildRows_map. apply Forall_fmap, Forall_forall. intros r _.
    change (length (row.cols (buildRow (collectColumns keys).1 keys r)) = length keys).
    replace (buildRow (collectColumns keys).1 keys r)
      with (buildRow (collectColumns keys).1 (collectColumns keys).2 r)
      by (rewrite collectColumns_names; reflexivity).
    rewrite buildRow_cells by exact Hnd. cbn [row.cols]. apply length_fmap.
Qed.

Lemma X16_returned_cursor_is_fresh_and_rectangular_witness :
  let stS := Fixture.stmt "SELECT" "SELECT * FROM users" in
  exists cursor,
    (QueryContext Fixture.beyond [Fixture.ragged] 2%nat [] (Fixture.world stS 0 O)).1
    = Returns (Some cursor, None) /\
    RowsCursor.posRow cursor = -1 /\
    exists rows,
      RowsCursor.rows cursor = [rows] /\
      Forall (fun r => length (row.cols r) = length (RowsCursor.cols cursor)) rows.
Proof.
  intros stS.
  exists (RowsCursor.mk (-1) [[row.mk [VInt64 1; VString "a"]; row.mk [VInt64 2; VNil]]]
            ["id"; "name"] [] (-1) false).
  split; [reflexivity|].
  destruct (X16_returned_cursor_is_fresh_and_rectangular Fixture.beyond
              [Fixture.ragged] 2%nat [] (Fixture.world stS 0 O)
              (cursor := RowsCursor.mk (-1)
                           [[row.mk [VInt64 1; VString "a"]; row.mk [VInt64 2; VNil]]]
                           ["id"; "name"] [] (-1) false)
              (err := None) eq_refl) as (_ & Hp & _ & _ & _ & _ & Hrows).
  split; [exact Hp | exact Hrows].
Defined.

(** X17. The query path does not look at the command: a statement whose
    command is INSERT, UPDATE or anything else is answered by
    [QueryContext] exactly as a SELECT statement with the same text is. *)
Theorem X17_query_ignores_the_command {U : Type}
    (beyond : string -> Value -> string) (Catcher : MockCatcher U) (s : loc)
    (st : FakeStmt.t) (command' : string) (args : list NamedValue) (w : World U) :
  stmts w !! s = Some st ->
  let st' := FakeStmt.mk (FakeStmt.connection st) (FakeStmt.q st) command'
                         (FakeStmt.next st) (FakeStmt.closed st)
                         (FakeStmt.colName st) (FakeStmt.colType st)
                         (FakeStmt.placeholders st) in
  let w' := with_stmts (<[s := st']> (stmts w)) w in
  (QueryContext beyond Catcher s args w').1 = (QueryContext beyond Catcher s args w).1.
Proof.
  intros Hst st' w'.
  assert (Hst' : stmts w' !! s = Some st') by apply lookup_insert_eq.
  destruct (FakeStmt.closed st) eqn:Hc.
  { rewrite (QueryContext_closed beyond Catcher s args w Hst Hc).
    rewrite (QueryContext_closed beyond Catcher s args w' Hst' eq_refl). reflexivity. }
  set (fResp := FindResponse Catcher (substitute beyond (FakeStmt.q st) args) args).
  destruct (fires (queryHook fResp) (env w)) eqn:Hf.
  { rewrite (QueryContext_badconn beyond Catcher s args w Hst Hc Hf).
    rewrite (QueryContext_badconn beyond Catcher s args w' Hst' eq_refl Hf). reflexivity. }
  destruct (Error fResp) as [e|] eqn:He.
  { rewrite (QueryContext_error beyond Catcher s args w Hst Hc Hf He).
    rewrite (QueryContext_error beyond Catcher s args w' Hst' eq_refl Hf He). reflexivity. }
  destruct (Response fResp) as [|first rest] eqn:Hr.
  - rewrite (QueryContext_no_records beyond Catcher s args w Hst Hc Hf He Hr).
    rewrite (QueryContext_no_records beyond Catcher s args w' Hst' eq_refl Hf He Hr).
    reflexivity.
  - rewrite (QueryContext_records beyond Catcher s args w Hst Hc Hf He Hr).
    rewrite (QueryContext_records beyond Catcher s args w' Hst' eq_refl Hf He Hr).
    reflexivity.
Qed.

Lemma X17_query_ignores_the_command_witness :
  (QueryContext Fixture.beyond [Fixture.users] 2%nat []
     (Fixture.world (Fixture.stmt "INSERT" "SELECT * FROM users") 0 O)).1
  = (QueryContext Fixture.beyond [Fixture.users] 2%nat []
       (Fixture.world (Fixture.stmt "SELECT" "SELECT * FROM users") 0 O)).1.
Proof.
  exact (X17_query_ignores_the_command Fixture.beyond [Fixture.users] 2%nat
           (st := Fixture.stmt "SELECT" "SELECT * FROM users") "INSERT" []
           (Fixture.world (Fixture.stmt "SELECT" "SELECT * FROM users") 0 O) eq_refl).
Defined.

(** X18. Whatever the statement, the arguments, the mock catcher and
    the state, a call of [ExecContext] or [QueryContext] that returns
    gives exactly one of a result and an error: the result (or cursor) is
    [nil] if and only if the error is not. *)
Theorem X18_result_or_error {U : Type} (beyond : string -> Value -> string)
    (Catcher : MockCatcher U) (s : loc) (args : list NamedValue) (w : World U) :
  (forall res err,
      (ExecContext Catcher s args w).1 = Returns (res, err) ->
      (res = None <-> err <> None)) /\
  (forall cursor err,
      (QueryContext beyond Catcher s args w).1 = Returns (cursor, err) ->
      (cursor = None <-> err <> None)).
Proof.
  assert (Hyes : forall (A : Type) (e : error),
             (@None A = None <-> Some e <> None)) by (intros; split; congruence).
  assert (Hno : forall (A : Type) (a : A),
             (Some a = None <-> @None error <> None)) by (intros; split; congruence).
  destruct (stmts w !! s) as [st|] eqn:Hst; cycle 1.
  { split; intros res err; unfold ExecContext, QueryContext, bind, loadStmt;
      rewrite Hst; discriminate. }
  split; intros res err.
  - destruct (FakeStmt.closed st) eqn:Hc.
    { rewrite (ExecContext_closed Catcher s args w Hst Hc).
      intros [= <- <-]. apply Hyes. }
    set (fResp := FindResponse Catcher (FakeStmt.q st) args).
    destruct (fires (execHook fResp) (env w)) eqn:Hf.
    { rewrite (ExecContext_badconn Catcher s args w Hst Hc Hf).
      intros [= <- <-]. apply Hyes. }
    destruct (Error fResp) as [e|] eqn:He.
    { rewrite (ExecContext_error Catcher s args w Hst Hc Hf He).
      intros [= <- <-]. apply Hyes. }
    rewrite (ExecContext_dispatch Catcher s args w Hst Hc Hf He). cbv zeta.
    destruct (String.eqb (FakeStmt.command st) "INSERT");
      [destruct (Z.eqb (LastInsertID _) 0)
      |destruct (String.eqb (FakeStmt.command st) "UPDATE"
                 || String.eqb (FakeStmt.command st) "DELETE"
                 || String.eqb (FakeStmt.command st) "MERGE")];
      intros [= <- <-]; first [apply Hyes | apply Hno].
  - destruct (FakeStmt.closed st) eqn:Hc.
    { rewrite (QueryContext_closed beyond Catcher s args w Hst Hc).
      intros [= <- <-]. apply Hyes. }
    set (fResp := FindResponse Catcher (substitute beyond (FakeStmt.q st) args) args).
    destruct (fires (queryHook fResp) (env w)) eqn:Hf.
    { rewrite (QueryContext_badconn beyond Catcher s args w Hst Hc Hf).
      intros [= <- <-]. apply Hyes. }
    destruct (Error fResp) as [e|] eqn:He.
    { rewrite (QueryContext_error beyond Catcher s args w Hst Hc Hf He).
      intros [= <- <-]. apply Hyes. }
    destruct (Response fResp) as [|first rest] eqn:Hr.
    + rewrite (QueryContext_no_records beyond Catcher s args w Hst Hc Hf He Hr).
      intros [= <- <-]. apply Hno.
    + rewrite (QueryContext_records beyond Catcher s args w Hst Hc Hf He Hr).
      intros [= <- <-]. apply Hno.
Qed.

Lemma X18_result_or_error_witness :
  let st := Fixture.stmt "CREATE" "CREATE TABLE t" in
  exists res err,
    (ExecContext [Fixture.users] 2%nat [] (Fixture.world st 0 O)).1
    = Returns (res, err) /\
    (res = None <-> err <> None).
Proof.
  intros st.
  destruct (X18_result_or_error Fixture.beyond [Fixture.users] 2%nat []
              (Fixture.world st 0 O)) as [H _].
  eexists _, _. split; [vm_compute; reflexivity|].
  apply H. vm_compute. reflexivity.
Defined.
